(** * space-cli: the project state manager and the release command

    A shallow embedding of [internal/runtime/manager.go] and of the release
    command ([selectRevision], [release]) together with the properties of
    their specification.

    Conventions.
    - A Go [string] and a Go [[]byte] are both byte sequences: a Go string
      is a Rocq [string], file contents are [list byte].
    - A Go function returning a pointer and an error returns
      [option T * option error] here, so that the pair of two nils can be
      told from a failure.
    - The file system and the remote collaborators are not part of the
      repository; they are modelled at the interface the code uses. *)

From Stdlib Require Import Strings.String Strings.Ascii Strings.Byte.
From stdpp Require Import base option list strings gmap.

Local Open Scope string_scope.

(** ** Errors ([errors], [fmt.Errorf], [os], [auth]) *)

Module errors.

(** The system call errors that reach the manager through [os]. *)
Inductive Errno : Type := ENOENT | EACCES | EISDIR | ENOTDIR | EIO.

Definition Errno_eqb (a b : Errno) : bool :=
  match a, b with
  | ENOENT, ENOENT | EACCES, EACCES | EISDIR, EISDIR
  | ENOTDIR, ENOTDIR | EIO, EIO => true
  | _, _ => false
  end.

(** Go errors as far as the two files tell them apart: system call
    errors, the sentinel of package [auth], plain messages, and the two
    wrappers whose chain [errors.Is] follows. *)
Inductive error : Type :=
| errno (e : Errno)                             (* syscall.Errno *)
| ErrNoAccessTokenFound                         (* auth.ErrNoAccessTokenFound *)
| errorString (s : string)                      (* errors.New, fmt.Errorf without %w *)
| PathError (op path : string) (err : error)    (* os.PathError *)
| wrapError (msg : string) (err : error).       (* fmt.Errorf with %w *)

(** [os.ErrNotExist]: the sentinel that [ENOENT] answers to. *)
Definition ErrNotExist : error := errno ENOENT.

Fixpoint error_eqb (a b : error) : bool :=
  match a, b with
  | errno e, errno e' => Errno_eqb e e'
  | ErrNoAccessTokenFound, ErrNoAccessTokenFound => true
  | errorString s, errorString t => String.eqb s t
  | PathError o p e, PathError o' p' e' =>
      String.eqb o o' && String.eqb p p' && error_eqb e e'
  | wrapError m e, wrapError m' e' => String.eqb m m' && error_eqb e e'
  | _, _ => false
  end.

(** The outcome of a call that yields either a value or an error. *)
Inductive result (T : Type) : Type :=
| Ok (v : T)
| Err (e : error).
Global Arguments Ok {T} v.
Global Arguments Err {T} e.

(** [errors.Is]: walks the [Unwrap] chain of [err] looking for [target]. *)
Fixpoint Is (err target : error) : bool :=
  error_eqb err target ||
  match err with
  | PathError _ _ e => Is e target
  | wrapError _ e => Is e target
  | _ => false
  end.

(** The [Error()] method. *)
Fixpoint Error (e : error) : string :=
  match e with
  | errno ENOENT => "no such file or directory"
  | errno EACCES => "permission denied"
  | errno EISDIR => "is a directory"
  | errno ENOTDIR => "not a directory"
  | errno EIO => "input/output error"
  | ErrNoAccessTokenFound => "no access token found"
  | errorString s => s
  | PathError op path err => op ++ " " ++ path ++ ": " ++ Error err
  | wrapError msg _ => msg
  end.

End errors.

Module fmt.
Import errors.

(** [fmt.Sprintf] for the verbs the two files use ([%s], [%v], [%w]), each
    consuming the next operand, already rendered as a string. *)
Fixpoint Sprintf (format : string) (args : list string) : string :=
  match format with
  | EmptyString => EmptyString
  | String "%" (String v rest) =>
      if (Ascii.eqb v "s" || Ascii.eqb v "v" || Ascii.eqb v "w")%bool then
        match args with
        | a :: args' => a ++ Sprintf rest args'
        | [] => "%!" ++ String v "(MISSING)" ++ Sprintf rest []
        end
      else String "%" (String v (Sprintf rest args))
  | String c rest => String c (Sprintf rest args)
  end.

(** [fmt.Errorf(format, v)] with a string operand: a plain error. *)
Definition Errorf (format : string) (args : list string) : error :=
  errorString (Sprintf format args).

(** [fmt.Errorf(format, err)] where [format] holds [%w]: the result wraps
    [err]. *)
Definition Errorf_w (format : string) (err : error) : error :=
  wrapError (Sprintf format [Error err]) err.

(** [fmt.Sprintln]: operands separated by spaces, newline appended. *)
Definition Sprintln (args : list string) : string :=
  String.concat " " args ++ String "010" EmptyString.

End fmt.

(** ** The file system, as [os] and [io/ioutil] show it to the manager *)

Module os.
Import errors.

(** What a path leads to.  A missing key of the map is a path at which no
    file exists and one can be created.  Read permission is not tracked
    apart: a regular file that can be opened at all can be read.
    [Fault lookup write] is a path that yields no usable file: looking it
    up ([Stat], [Open]) fails with [lookup], creating or writing it fails
    with [write] (a missing or read-only parent directory, a path through
    a regular file, ...). *)
Inductive node : Type :=
| File (data : list byte) (writable : bool)
| Dir
| Fault (lookup write : Errno).

Abbreviation fs := (gmap string node).

(** [os.Stat], of which the manager only looks at the error. *)
Definition Stat (path : string) (σ : fs) : option error :=
  match σ !! path with
  | None => Some (PathError "stat" path ErrNotExist)
  | Some (File _ _) | Some Dir => None
  | Some (Fault e _) => Some (PathError "stat" path (errno e))
  end.

(** [os.IsNotExist]: looks through one [PathError], not through [%w]. *)
Definition IsNotExist (err : error) : bool :=
  match err with
  | PathError _ _ e => error_eqb e ErrNotExist
  | e => error_eqb e ErrNotExist
  end.

(** A path at which no file exists, as [Stat] reports it. *)
Definition notExist (path : string) (σ : fs) : Prop :=
  ∃ err, Stat path σ = Some err ∧ IsNotExist err = true.

(** [os.Open]: the open file is the node it refers to. *)
Definition Open (path : string) (σ : fs) : result node :=
  match σ !! path with
  | None => Err (PathError "open" path ErrNotExist)
  | Some (Fault e _) => Err (PathError "open" path (errno e))
  | Some n => Ok n
  end.

End os.

Module ioutil.
Import errors os.

(** [ioutil.ReadAll] on an open file. *)
Definition ReadAll (path : string) (f : node) : result (list byte) :=
  match f with
  | File data _ => Ok data
  | Dir => Err (PathError "read" path (errno EISDIR))
  | Fault e _ => Err (PathError "read" path (errno e))
  end.

(** [ioutil.WriteFile]: creates the file or truncates it and writes
    [data]; [perm] only matters for a file that is created.  A write that
    fails leaves the file system as it was. *)
Definition WriteFile (path : string) (data : list byte) (perm : N) (σ : fs)
  : fs * option error :=
  match σ !! path with
  | None => (<[path := File data true]> σ, None)
  | Some (File _ true) => (<[path := File data true]> σ, None)
  | Some (File _ false) => (σ, Some (PathError "open" path (errno EACCES)))
  | Some Dir => (σ, Some (PathError "open" path (errno EISDIR)))
  | Some (Fault _ e) => (σ, Some (PathError "open" path (errno e)))
  end.

End ioutil.

(** ** [regexp.MatchString] for the one pattern the manager uses *)

Module regexp.

Definition bytes (s : string) : list byte := list_byte_of_string s.

(** The literal of the pattern [(?m)^(\.space)\b]. *)
Definition literal : list byte := bytes ".space".

(** [syntax.IsWordChar]: the ASCII letters, digits and underscore. *)
Definition IsWordChar (c : byte) : bool :=
  let r := Byte.to_N c in
  ((65 <=? r) && (r <=? 90) || (97 <=? r) && (r <=? 122)
   || (48 <=? r) && (r <=? 57) || (r =? 95))%N.

Definition isWord (c : option byte) : bool := from_option IsWordChar false c.

(** [(?m)^]: at the beginning of the text or right after a newline. *)
Definition beginLine (before : option byte) : bool :=
  match before with
  | None => true
  | Some c => Byte.eqb c x0a
  end.

(** [\b]: a word character on exactly one side. *)
Definition wordBoundary (before after : option byte) : bool :=
  xorb (isWord before) (isWord after).

Fixpoint stripPrefix (p s : list byte) : option (list byte) :=
  match p, s with
  | [], _ => Some s
  | a :: p', b :: s' => if Byte.eqb a b then stripPrefix p' s' else None
  | _ :: _, [] => None
  end.

(** A match that starts at the current position, [before] being the byte
    just read. *)
Definition matchHere (before : option byte) (s : list byte) : bool :=
  beginLine before &&
  match stripPrefix literal s with
  | Some rest => wordBoundary (last literal) (head rest)
  | None => false
  end.

Fixpoint matchFrom (before : option byte) (s : list byte) : bool :=
  matchHere before s ||
  match s with
  | [] => false
  | c :: s' => matchFrom (Some c) s'
  end.

(** [regexp.MatchString(`(?m)^(\.space)\b`, s)]: an unanchored search. *)
Definition MatchString (s : list byte) : bool := matchFrom None s.

End regexp.

(** ** [internal/runtime/manager.go] *)

Module runtime.
Import errors os.

(* drwxrw---- *)
Definition dirPermMode : N := 496.   (* 0760 *)
(* -rw-rw--- *)
Definition filePermMode : N := 432.  (* 0660 *)

Definition spaceDir : string := ".space".
Definition projectMetaFile : string := "meta".

(** Manager runtime manager handles files management and other services *)
Record Manager : Type := {
  rootDir : string;          (* working directory of the project *)
  spacePath : string;        (* dir for storing project meta *)
  projectMetaPath : string;  (* path to info file about the project *)
}.

Definition LF : string := String "010" EmptyString.

Section manager.

(** The record type [ProjectMeta] and [projectMetaFromBytes] are declared
    in a file of the package that is not at hand, [json.Marshal] and
    [filepath.Join] belong to the Go library: the manager is
    parameterised by them. *)
Context {ProjectMeta : Type}.
Context (filepath_Join : string → string → string).
Context (json_Marshal : ProjectMeta → result (list byte)).
Context (projectMetaFromBytes : list byte → option ProjectMeta * option error).

(** reads the contents of a file, returns contents *)
Definition readFile (m : Manager) (path : string) (σ : fs) : result (list byte) :=
  match Open path σ with
  | Err err => Err err
  | Ok f => ioutil.ReadAll path f
  end.

(** StoreProjectMeta stores project meta to disk *)
Definition StoreProjectMeta (m : Manager) (p : ProjectMeta) (σ : fs)
  : fs * option error :=
  match json_Marshal p with
  | Err err => (σ, Some err)
  | Ok marshalled =>
      let spaceReadmeNotes :=
        "Don't commit this folder (.space) to git as it may contain security-sensitive data." in
      let '(σ, _) :=
        ioutil.WriteFile (filepath_Join (spacePath m) "README")
          (regexp.bytes spaceReadmeNotes) filePermMode σ in
      ioutil.WriteFile (projectMetaPath m) marshalled filePermMode σ
  end.

(** GetProjectMeta gets the project info stored *)
Definition GetProjectMeta (m : Manager) (σ : fs)
  : option ProjectMeta * option error :=
  match readFile m (projectMetaPath m) σ with
  | Err err =>
      if Is err ErrNotExist then (None, None)
      else (None, Some err)
  | Ok contents =>
      match projectMetaFromBytes contents with
      | (_, Some err) => (None, Some err)
      | (projectMeta, None) => (projectMeta, None)
      end
  end.

Definition IsProjectInitialized (m : Manager) (σ : fs) : bool * option error :=
  match Stat (projectMetaPath m) σ with
  | Some err =>
      if IsNotExist err then (false, None)
      else (false, Some err)
  | None => (true, None)
  end.

(** AddSpaceToGitignore add .space to .gitignore *)
Definition AddSpaceToGitignore (m : Manager) (σ : fs) : fs * option error :=
  let gitignorePath := filepath_Join (rootDir m) ".gitignore" in
  let gitignoreExists :=
    match Stat gitignorePath σ with
    | Some err => if IsNotExist err then false else true
    | None => true
    end in
  if gitignoreExists then
    match readFile m gitignorePath σ with
    | Err err =>
        (σ, Some (fmt.Errorf_w "failed to append .space to .gitignore: %w" err))
    | Ok contents =>
        (* check if .space already exists *)
        let pass := regexp.MatchString contents in
        if pass then (σ, None)
        else
          let contents := (contents ++ regexp.bytes (LF ++ ".space"))%list in
          match ioutil.WriteFile gitignorePath contents filePermMode σ with
          | (σ, Some err) =>
              (σ, Some (fmt.Errorf_w "failed to append .space to .gitignore: %w" err))
          | (σ, None) => (σ, None)
          end
    end
  else
    match ioutil.WriteFile gitignorePath (regexp.bytes ".space") filePermMode σ with
    | (σ, Some err) =>
        (σ, Some (fmt.Errorf_w "failed to write .space to .gitignore: %w" err))
    | (σ, None) => (σ, None)
    end.

(** What [.gitignore] holds, for the properties about its content. *)
Definition gitignore (m : Manager) (σ : fs) : option node :=
  σ !! filepath_Join (rootDir m) ".gitignore".

End manager.

End runtime.

(** ** The remote service and the terminal, as the release command sees them *)

(** Package [api] is not at hand; its types are declared here with the
    fields the command reads and writes. *)
Module api.
Import errors.

Module Revision.
Record t : Type := { ID : string; Tag : string }.
End Revision.

Module GetRevisionsRequest.
Record t : Type := { ID : string }.
End GetRevisionsRequest.

Module GetRevisionsResponse.
Record t : Type := { Revisions : list Revision.t }.
End GetRevisionsResponse.

Module CreateReleaseRequest.
Record t : Type := {
  RevisionID : string;
  AppID : string;
  Version : string;
  ReleaseNotes : string;
  DiscoveryList : bool;
  Channel : string;
}.
End CreateReleaseRequest.

Module CreateReleaseResponse.
Record t : Type := { ID : string }.
End CreateReleaseResponse.

Module GetReleaseLogsRequest.
Record t : Type := { ID : string }.
End GetReleaseLogsRequest.

Module GetReleasePromotionRequest.
Record t : Type := { PromotionID : string }.
End GetReleasePromotionRequest.

Module Promotion.
Record t : Type := { Status : string }.
End Promotion.

(** The log stream as [bufio.Scanner] delivers it: the lines for which
    [Scan] answers true, in order, and what [Err] reports once [Scan] has
    answered false (nothing at the end of the stream). *)
Module ReadCloser.
Record t : Type := { lines : list string; err : option error }.
End ReadCloser.

(** [shared.Client]: one answer per request. *)
Record Client : Type := {
  GetRevisions : GetRevisionsRequest.t → result GetRevisionsResponse.t;
  CreateRelease : CreateReleaseRequest.t → result CreateReleaseResponse.t;
  GetReleaseLogs : GetReleaseLogsRequest.t → result ReadCloser.t;
  GetReleasePromotion : GetReleasePromotionRequest.t → result Promotion.t;
}.

End api.

(** The constants and renderers of the packages [api], [emoji], [styles] and
    [shared], none of which is at hand. *)
Module shared.

Record Env : Type := {
  (* api *)
  Complete : string;
  (* emoji *)
  ErrorExclamation : string;
  Rocket : string;
  Earth : string;
  PartyFace : string;
  CrystalBall : string;
  Package : string;
  (* styles *)
  Errorf : string → list string → string;
  Code : string → string;
  Codef : string → list string → string;
  Subtle : string → string;
  (* shared *)
  LoginInfo : string;
  BuilderUrl : string;
}.

End shared.

(** ** Runs of the command: the calls it makes, in order *)

Module trace.
Import api.

Inductive event : Type :=
| Client_GetRevisions (req : GetRevisionsRequest.t)
| Client_CreateRelease (req : CreateReleaseRequest.t)
| Client_GetReleaseLogs (req : GetReleaseLogsRequest.t)
| Client_GetReleasePromotion (req : GetReleasePromotionRequest.t)
| choose_Run (prompt : string) (options : list string)
| Logger_Println (v : list string)
| Logger_Printf (format : string) (v : list string)
| fmt_Println (v : list string)
| Scanner_Scan (line : option string)   (* [Scan] and, when true, [Text] *)
| ReadCloser_Close.

(** A computation that returns a value and records the calls it made. *)
Definition IO (A : Type) : Type := (A * list event)%type.

Definition ret {A} (a : A) : IO A := (a, []).

Definition bind {A B} (m : IO A) (k : A → IO B) : IO B :=
  let '(a, t) := m in
  let '(b, t') := k a in
  (b, t ++ t')%list.

Definition emit (e : event) : IO unit := (tt, [e]).

(** A call to a collaborator: recorded, then answered. *)
Definition call {A} (e : event) (answer : A) : IO A := (answer, [e]).

(** [defer]: [e] happens when the body returns, whichever way. *)
Definition defer {A} (e : event) (body : IO A) : IO A :=
  bind body (λ a, bind (emit e) (λ _, ret a)).

Definition result_of {A} (m : IO A) : A := fst m.
Definition calls {A} (m : IO A) : list event := snd m.

End trace.

Declare Scope io_scope.
Delimit Scope io_scope with io.
Notation "x <- m ;; k" := (trace.bind m (λ x, k))
  (at level 100, m at next level, right associativity) : io_scope.
Notation "m ;; k" := (trace.bind m (λ _, k))
  (at level 100, right associativity) : io_scope.

(** ** The release command *)

Module cmd.
Import errors api shared trace.
Local Open Scope io_scope.

Definition ReleaseChannelExp : string := "experimental".

Definition LF : string := String "010" EmptyString.

Section release.

Context (env : Env) (Client : api.Client).
(** [choose.Run]: the interactive chooser, given the prompt and the
    options. *)
Context (choose : string → list string → result string).

(** [for scanner.Scan() { line := scanner.Text(); fmt.Println(line) }] *)
Fixpoint scan (lines : list string) : IO unit :=
  match lines with
  | line :: rest =>
      emit (Scanner_Scan (Some line)) ;;
      emit (fmt_Println [line]) ;;
      scan rest
  | [] => emit (Scanner_Scan None)
  end.

(** The loop of [selectRevision] over the window of revisions. *)
Definition collect (revisions : list Revision.t)
  : gmap string Revision.t * list string :=
  foldl (λ '(revisionMap, tags) revision,
           (<[Revision.Tag revision := revision]> revisionMap,
            (tags ++ [Revision.Tag revision])%list))
        (∅, []) revisions.

Definition selectRevision (projectID : string) (useLatestRevision : bool)
  : IO (option Revision.t * option error) :=
  let req := {| GetRevisionsRequest.ID := projectID |} in
  r <- call (Client_GetRevisions req) (GetRevisions Client req) ;;
  match r with
  | Err err =>
      if Is err ErrNoAccessTokenFound then
        emit (Logger_Println [LoginInfo env]) ;;
        ret (None, Some err)
      else
        emit (Logger_Println
                [Errorf env "%s Failed to get revisions: %v"
                   [ErrorExclamation env; Error err]]) ;;
        ret (None, Some err)
  | Ok r =>
      let err : option error := None in
      let revisions := GetRevisionsResponse.Revisions r in
      if (length (GetRevisionsResponse.Revisions r) =? 0)%nat then
        emit (Logger_Printf
                (Errorf env "%s No revisions found. Please create a revision by running %s"
                   [ErrorExclamation env; Code env "space push"]) []) ;;
        ret (None, err)
      else
        let latestRevision := head (GetRevisionsResponse.Revisions r) in
        if useLatestRevision then ret (latestRevision, None)
        else
          let revisions :=
            if (5 <? length revisions)%nat then take 5 revisions else revisions in
          let '(revisionMap, tags) := collect revisions in
          let prompt :=
            fmt.Sprintf "Choose a revision %s:" [Subtle env "(most recent revisions)"] in
          c <- call (choose_Run prompt tags) (choose prompt tags) ;;
          match c with
          | Err err => ret (None, Some err)
          | Ok tag => ret (revisionMap !! tag, None)
          end
  end.

Definition release (projectDir projectID revisionID releaseVersion : string)
  (listedRelease : bool) (releaseNotes : string) : IO (option error) :=
  let req :=
    {| CreateReleaseRequest.RevisionID := revisionID;
       CreateReleaseRequest.AppID := projectID;
       CreateReleaseRequest.Version := releaseVersion;
       CreateReleaseRequest.ReleaseNotes := releaseNotes;
       CreateReleaseRequest.DiscoveryList := listedRelease;
       (* always experimental release for now *)
       CreateReleaseRequest.Channel := ReleaseChannelExp |} in
  cr <- call (Client_CreateRelease req) (CreateRelease Client req) ;;
  match cr with
  | Err err =>
      if Is err ErrNoAccessTokenFound then
        emit (Logger_Println [LoginInfo env]) ;;
        ret None
      else
        emit (Logger_Println
                [Errorf env "%s Failed to create release: %v"
                   [ErrorExclamation env; Error err]]) ;;
        ret (Some err)
  | Ok cr =>
      let req := {| GetReleaseLogsRequest.ID := CreateReleaseResponse.ID cr |} in
      readCloser <- call (Client_GetReleaseLogs req) (GetReleaseLogs Client req) ;;
      match readCloser with
      | Err err =>
          emit (Logger_Println
                  [Errorf env "%s Error: %v" [ErrorExclamation env; Error err]]) ;;
          ret (Some err)
      | Ok readCloser =>
          defer ReadCloser_Close (
            scan (ReadCloser.lines readCloser) ;;
            match ReadCloser.err readCloser with
            | Some err =>
                emit (Logger_Printf ("%s Error: %v" ++ LF)
                        [ErrorExclamation env; Error err]) ;;
                ret (Some err)
            | None =>
                let req :=
                  {| GetReleasePromotionRequest.PromotionID :=
                       CreateReleaseResponse.ID cr |} in
                r <- call (Client_GetReleasePromotion req)
                       (GetReleasePromotion Client req) ;;
                match r with
                | Err err =>
                    emit (Logger_Printf
                            (Errorf env
                               (LF ++ "%s Failed to check if release succeeded. Please check %s if a new release was created successfully.")
                               [ErrorExclamation env;
                                Codef env "%s/%s/develop" [BuilderUrl env; projectID]])
                            []) ;;
                    ret (Some err)
                | Ok r =>
                    if String.eqb (Promotion.Status r) (Complete env) then
                      emit (Logger_Println []) ;;
                      emit (Logger_Println
                              [Rocket env; "Lift off -- successfully created a new Release!"]) ;;
                      emit (Logger_Println
                              [Earth env; "Your Release is available globally on 5 Deta Edges"]) ;;
                      emit (Logger_Println
                              [PartyFace env; "Anyone can install their own copy of your app."]) ;;
                      (if listedRelease then
                         emit (Logger_Println
                                 [CrystalBall env; "Listed on Discovery for others to find!"])
                       else ret tt) ;;
                      ret None
                    else
                      emit (Logger_Println
                              [Errorf env (LF ++ "%s Failed to create release. Please try again!")
                                 [ErrorExclamation env]]) ;;
                      ret (Some (fmt.Errorf "release failed: %s" [Promotion.Status r]))
                end
            end)
      end
  end.

Definition getCreatingReleaseMsg (listed latest : bool) : string :=
  let listedInfo := if listed then " listed" else "" in
  let latestInfo := if latest then " with the latest Revision" else "" in
  fmt.Sprintf (LF ++ "%s Creating a%s Release%s ..." ++ LF ++ LF)
    [Package env; listedInfo; latestInfo].

End release.

End cmd.

(** ** Sample collaborators, on which the definitions can be run *)

Module sample.
Import errors os api shared trace.

(** A project record with its identifier only, stored as the bytes of the
    identifier; the empty file does not decode. *)
Record ProjectMeta : Type := { ID : string }.

Definition Marshal (p : ProjectMeta) : result (list byte) :=
  Ok (list_byte_of_string (ID p)).

Definition projectMetaFromBytes (data : list byte)
  : option ProjectMeta * option error :=
  match data with
  | [] => (None, Some (errorString "unexpected end of JSON input"))
  | _ => (Some {| ID := string_of_list_byte data |}, None)
  end.

Definition Join (dir name : string) : string := dir ++ "/" ++ name.

Definition manager : runtime.Manager :=
  {| runtime.rootDir := "/app";
     runtime.spacePath := "/app/.space";
     runtime.projectMetaPath := "/app/.space/meta" |}.

Definition meta : ProjectMeta := {| ID := "a0b1c2" |}.

(** A project whose ignore file holds the given lines. *)
Definition ignoring (contents : string) : fs :=
  {[ Join "/app" ".gitignore" := File (list_byte_of_string contents) true ]}.

Definition env : Env :=
  {| Complete := "complete";
     ErrorExclamation := "!"; Rocket := "rocket"; Earth := "earth";
     PartyFace := "party"; CrystalBall := "crystal"; Package := "package";
     Errorf := fmt.Sprintf; Code := id; Codef := fmt.Sprintf;
     Subtle := id;
     LoginInfo := "login to continue"; BuilderUrl := "https://builder" |}.

Definition revision (i tag : string) : Revision.t :=
  {| Revision.ID := i; Revision.Tag := tag |}.

(** A service that answers with the given revisions, creation outcome,
    log stream and promotion status. *)
Definition client (revisions : list Revision.t)
  (created : result CreateReleaseResponse.t)
  (logs : result ReadCloser.t) (status : string) : Client :=
  {| GetRevisions := λ _, Ok {| GetRevisionsResponse.Revisions := revisions |};
     CreateRelease := λ _, created;
     GetReleaseLogs := λ _, logs;
     GetReleasePromotion := λ _, Ok {| Promotion.Status := status |} |}.

Definition created : result CreateReleaseResponse.t :=
  Ok {| CreateReleaseResponse.ID := "rel-1" |}.

Definition logs : result ReadCloser.t :=
  Ok {| ReadCloser.lines := ["building"; "deploying"]; ReadCloser.err := None |}.

(** A chooser that picks the given tag whatever it is offered. *)
Definition pick (tag : string) : string → list string → result string :=
  λ _ _, Ok tag.

(** A release of the sample application against a given service. *)
Definition release (Client : api.Client) (listed : bool) : IO (option error) :=
  cmd.release env Client "./" "app" "rev-1" "v1" listed "notes".

Definition eight : list Revision.t :=
  [revision "r8" "h"; revision "r7" "g"; revision "r6" "f"; revision "r5" "e";
   revision "r4" "d"; revision "r3" "c"; revision "r2" "b"; revision "r1" "a"].

Definition twins : list Revision.t :=
  [revision "r3" "main"; revision "r2" "fix"; revision "r1" "main"].

End sample.

(** ** Vocabulary of the properties *)

Module spec.
Import errors os api shared trace.

(** The request that [release] submits. *)
Definition request (projectID revisionID releaseVersion : string)
  (listedRelease : bool) (releaseNotes : string) : CreateReleaseRequest.t :=
  {| CreateReleaseRequest.RevisionID := revisionID;
     CreateReleaseRequest.AppID := projectID;
     CreateReleaseRequest.Version := releaseVersion;
     CreateReleaseRequest.ReleaseNotes := releaseNotes;
     CreateReleaseRequest.DiscoveryList := listedRelease;
     CreateReleaseRequest.Channel := cmd.ReleaseChannelExp |}.

(** A log stream read to its end: every line read and printed, in order,
    then the read that finds the stream exhausted. *)
Definition streamed (lines : list string) : list event :=
  (flat_map (λ line, [Scanner_Scan (Some line); fmt_Println [line]]) lines
   ++ [Scanner_Scan None])%list.

(** Reading from the log stream or forwarding one of its lines. *)
Definition is_streaming (e : event) : bool :=
  match e with
  | Scanner_Scan _ | fmt_Println _ => true
  | _ => false
  end.

Definition is_promotion (e : event) : bool :=
  match e with
  | Client_GetReleasePromotion _ => true
  | _ => false
  end.

(** The prompt of the interactive chooser. *)
Definition prompt (env : Env) : string :=
  fmt.Sprintf "Choose a revision %s:" [Subtle env "(most recent revisions)"].

(** The confirmation line of a listed release. *)
Definition listed_line (env : Env) : event :=
  Logger_Println [CrystalBall env; "Listed on Discovery for others to find!"].

(** Modelled from the spec: the record [ProjectMeta] and the decoder
    [projectMetaFromBytes] are declared in a file of package [runtime] that
    is not at hand.  The spec has getMeta "read and deserialize the metadata
    file" and promises that a read "returns exactly what was stored
    (round-trip via serialization)": a record is valid when deserializing
    what serialization makes of it gives the record back, without error. *)
Definition valid {ProjectMeta : Type}
  (json_Marshal : ProjectMeta → result (list byte))
  (projectMetaFromBytes : list byte → option ProjectMeta * option error)
  (p : ProjectMeta) : Prop :=
  ∀ marshalled, json_Marshal p = Ok marshalled →
                projectMetaFromBytes marshalled = (Some p, None).

(** The end of [pre] is the start of a line. *)
Definition atLineStart (pre : list byte) : Prop :=
  pre = [] ∨ last pre = Some x0a.

(** The start of [post] is not a word character. *)
Definition atWordEnd (post : list byte) : Prop :=
  regexp.isWord (head post) = false.

(** The byte before the position that [pre] leads to, [before] being the
    byte before [pre]. *)
Definition byteBefore (before : option byte) (pre : list byte) : option byte :=
  match last pre with
  | Some c => Some c
  | None => before
  end.

(** Some line of [s] starts with [.space] and goes on, if at all, with a
    byte that is not a word character. *)
Definition ignoresSpace (s : list byte) : Prop :=
  ∃ pre post, s = (pre ++ regexp.literal ++ post)%list
              ∧ atLineStart pre ∧ atWordEnd post.

End spec.

(** ** The command as cobra runs it *)

Module command.
Import errors api shared trace.

(** The flags of [release] as the closure reads them: their values (the
    default when a flag was not given) and which of them were given. *)
Record Flags : Type := {
  dir : string;
  id : string;
  rid : string;
  version : string;
  listed : bool;
  confirm : bool;
  notes : string;
  Changed : string → bool;
}.

(** What the closure does beyond the calls of [selectRevision] and
    [release]: it asks package [runtime] for the project record and the
    terminal for a confirmation. *)
Inductive call : Type :=
| inner (e : event)
| runtime_GetProjectMeta (projectDir : string)
| confirm_Run (prompt : string).

(** How the closure ends: it returns, the process exits with a status, or
    a nil pointer is dereferenced. *)
Inductive status : Type :=
| Returned
| Exit (code : Z)
| NilDereference.

Definition Proc : Type := (status * list call)%type.

Definition ended (p : Proc) : status := fst p.
Definition made (p : Proc) : list call := snd p.

(** One more call, then the rest. *)
Definition after (c : call) (rest : Proc) : Proc :=
  let '(s, t) := rest in (s, c :: t).

(** A computation of the command, then the rest. *)
Definition run {A} (m : IO A) (rest : A → Proc) : Proc :=
  let '(a, t) := m in
  let '(s, t') := rest a in
  (s, (inner <$> t) ++ t')%list.

Definition os_Exit (code : Z) : Proc := (Exit code, []).

Section Run.

Context (env : Env) (Client : api.Client).
Context (choose : string → list string → result string).
(** [styles.Blue], [shared.IsOutputInteractive], [confirm.Run] and the
    function [GetProjectMeta] of package [runtime] that takes the project
    directory, with the record it returns and its field [ID]. *)
Context (Blue : string → string).
Context (IsOutputInteractive : bool).
Context (confirm_run : string → result bool).
Context {ProjectMeta : Type} (ProjectMeta_ID : ProjectMeta → string).
Context (GetProjectMeta : string → option ProjectMeta * option error).

(** The [Run] closure of [newCmdRelease]. *)
Definition Run (flags : Flags) : Proc :=
  if negb IsOutputInteractive && negb (Changed flags "rid")
     && negb (Changed flags "confirm") then
    after (inner (Logger_Printf
                    "revision id or confirm flag must be provided in non-interactive mode" []))
      (os_Exit 1)
  else
    let projectDir := dir flags in
    let releaseNotes := notes flags in
    let listedRelease := listed flags in
    let releaseVersion := version flags in
    let withProjectID (rest : string → Proc) : Proc :=
      if negb (Changed flags "id") then
        after (runtime_GetProjectMeta projectDir)
          match GetProjectMeta projectDir with
          | (_, Some err) => os_Exit 1
          | (None, None) => (NilDereference, [])
          | (Some projectMeta, None) => rest (ProjectMeta_ID projectMeta)
          end
      else rest (id flags) in
    withProjectID (λ projectID,
      let withRevision (rest : string → bool → Proc) : Proc :=
        if negb (Changed flags "rid") then
          let withLatest (rest' : bool → Proc) : Proc :=
            if negb (Changed flags "confirm") then
              after (confirm_Run "Do you want to use the latest revision?")
                match confirm_run "Do you want to use the latest revision?" with
                | Err err => os_Exit 1
                | Ok useLatestRevision => rest' useLatestRevision
                end
            else rest' (confirm flags) in
          withLatest (λ useLatestRevision,
            run (cmd.selectRevision env Client choose projectID useLatestRevision)
              (λ '(revision, err),
                 match err, revision with
                 | Some err, _ => os_Exit 1
                 | None, None => (NilDereference, [])
                 | None, Some revision =>
                     after (inner (Logger_Printf (cmd.LF ++ "Selected revision: %s")
                                     [Blue (Revision.Tag revision)]))
                       (rest (Revision.ID revision) useLatestRevision)
                 end))
        else rest (rid flags) (confirm flags) in
      withRevision (λ revisionID useLatestRevision,
        after (inner (Logger_Printf
                        (cmd.getCreatingReleaseMsg env listedRelease useLatestRevision) []))
          (run (cmd.release env Client projectDir projectID revisionID
                  releaseVersion listedRelease releaseNotes)
             (λ err,
                match err with
                | Some err => os_Exit 1
                | None => (Returned, [])
                end)))).

End Run.

End command.

(** ** Vocabulary of the further properties *)

Module observe.
Import errors api shared trace.

(** The lines a run has written to the standard output. *)
Definition printed (t : list event) : list string :=
  flat_map (λ e, match e with fmt_Println v => v | _ => [] end) t.

Definition is_create (e : event) : bool :=
  match e with Client_CreateRelease _ => true | _ => false end.

Definition is_open (e : event) : bool :=
  match e with Client_GetReleaseLogs _ => true | _ => false end.

Definition is_close (e : event) : bool :=
  match e with ReadCloser_Close => true | _ => false end.

(** Fetching the revisions or asking the chooser. *)
Definition is_selection (e : event) : bool :=
  match e with
  | Client_GetRevisions _ | choose_Run _ _ => true
  | _ => false
  end.

(** A call to the remote service. *)
Definition is_remote (c : command.call) : bool :=
  match c with
  | command.inner (Client_GetRevisions _) | command.inner (Client_CreateRelease _)
  | command.inner (Client_GetReleaseLogs _)
  | command.inner (Client_GetReleasePromotion _) => true
  | _ => false
  end.

(** Resolving the revision: asking whether to use the latest one, fetching
    the revisions or asking the chooser. *)
Definition is_resolution (c : command.call) : bool :=
  match c with
  | command.confirm_Run _ => true
  | command.inner e => is_selection e
  | _ => false
  end.

End observe.

(** ** Sample invocations of the command *)

Module scenario.
Import errors api shared trace.

(** [space release --id app --rid rev-9 --version v1] *)
Definition explicit : command.Flags :=
  {| command.dir := "./"; command.id := "app"; command.rid := "rev-9";
     command.version := "v1"; command.listed := false; command.confirm := false;
     command.notes := "";
     command.Changed := λ name,
       (String.eqb name "id" || String.eqb name "rid" || String.eqb name "version")%bool |}.

(** [space release --id app --confirm --version v1] *)
Definition latest : command.Flags :=
  {| command.dir := "./"; command.id := "app"; command.rid := "";
     command.version := "v1"; command.listed := false; command.confirm := true;
     command.notes := "";
     command.Changed := λ name,
       (String.eqb name "id" || String.eqb name "confirm"
        || String.eqb name "version")%bool |}.

(** [space release --version v1], with neither project nor revision. *)
Definition bare : command.Flags :=
  {| command.dir := "./"; command.id := ""; command.rid := "";
     command.version := "v1"; command.listed := false; command.confirm := false;
     command.notes := "";
     command.Changed := λ name, String.eqb name "version" |}.

(** A project directory with no record, one with the record of [app]. *)
Definition no_record : string → option sample.ProjectMeta * option error :=
  λ _, (None, None).

Definition record : string → option sample.ProjectMeta * option error :=
  λ _, (Some {| sample.ID := "app" |}, None).

Definition yes : string → result bool := λ _, Ok true.

(** A service that refuses every request for want of an access token. *)
Definition logged_out : Client :=
  {| GetRevisions := λ _, Err ErrNoAccessTokenFound;
     CreateRelease := λ _, Err ErrNoAccessTokenFound;
     GetReleaseLogs := λ _, Err ErrNoAccessTokenFound;
     GetReleasePromotion := λ _, Err ErrNoAccessTokenFound |}.

(** A chooser that gives up. *)
Definition cancel : string → list string → result string :=
  λ _ _, Err (errorString "cancelled").

(** The closure on the sample environment. *)
Definition Run (Client : api.Client) (interactive : bool)
  (GetProjectMeta : string → option sample.ProjectMeta * option error)
  (flags : command.Flags) : command.Proc :=
  command.Run sample.env Client (sample.pick "main") id interactive yes
    sample.ID GetProjectMeta flags.

End scenario.

(** * Properties *)

Import errors os api shared trace.
Local Open Scope list_scope.

(** ** The revision selector *)

Lemma collect_snoc (revisions : list Revision.t) (x : Revision.t) :
  cmd.collect (revisions ++ [x]) =
    (<[Revision.Tag x := x]> (cmd.collect revisions).1,
     (cmd.collect revisions).2 ++ [Revision.Tag x]).
Proof.
  unfold cmd.collect. rewrite foldl_app. simpl.
  by destruct (foldl _ _ revisions) as [revisionMap tags].
Qed.

Lemma collect_tags (revisions : list Revision.t) :
  (cmd.collect revisions).2 = Revision.Tag <$> revisions.
Proof.
  induction revisions as [| x revisions IH] using rev_ind; [done |].
  by rewrite collect_snoc, fmap_app, <- IH.
Qed.

(** The map built by the loop sends a tag to the last revision that bears
    it. *)
Lemma collect_lookup_last (revisions : list Revision.t) (j : nat) (rj : Revision.t) :
  revisions !! j = Some rj →
  (∀ k rk, (j < k)%nat → revisions !! k = Some rk →
           Revision.Tag rk ≠ Revision.Tag rj) →
  (cmd.collect revisions).1 !! Revision.Tag rj = Some rj.
Proof.
  induction revisions as [| x revisions IH] using rev_ind; [done |].
  intros Hj Hlast. rewrite collect_snoc. simpl.
  destruct (decide (j = length revisions)) as [-> | Hne].
  - rewrite list_lookup_middle in Hj by done. injection Hj as ->.
    apply lookup_insert_eq.
  - assert (j < length revisions)%nat as Hlt.
    { apply lookup_lt_Some in Hj. rewrite length_app in Hj. simpl in Hj. lia. }
    rewrite lookup_app_l in Hj by done.
    rewrite lookup_insert_ne.
    + apply IH; [done |]. intros k rk Hk Hlk.
      apply (Hlast k rk Hk). rewrite lookup_app_l; [done |].
      by apply lookup_lt_Some in Hlk.
    + apply (Hlast (length revisions) x Hlt). by apply list_lookup_middle.
Qed.

Lemma window_take (revisions : list Revision.t) :
  (if (5 <? length revisions)%nat then take 5 revisions else revisions)
  = take 5 revisions.
Proof.
  destruct (5 <? length revisions)%nat eqn:Hlen; [done |].
  apply Nat.ltb_ge in Hlen. by rewrite take_ge.
Qed.

Section selector.

Context (env : Env) (Client : api.Client).
Context (choose : string → list string → result string).

(** C1, on the code as written: when the fetch succeeds with an empty
    list, [selectRevision] logs the "No revisions found" message, does not
    call the chooser, and returns the error of the fetch, which is nil at
    that point: the caller receives neither a revision nor an error. *)
Theorem selectRevision_empty_returns_no_error
  (projectID : string) (useLatestRevision : bool) (r : GetRevisionsResponse.t) :
  GetRevisions Client {| GetRevisionsRequest.ID := projectID |} = Ok r →
  GetRevisionsResponse.Revisions r = [] →
  let run := cmd.selectRevision env Client choose projectID useLatestRevision in
  result_of run = (None, None) ∧
  calls run =
    [Client_GetRevisions {| GetRevisionsRequest.ID := projectID |};
     Logger_Printf
       (Errorf env "%s No revisions found. Please create a revision by running %s"
          [ErrorExclamation env; Code env "space push"]) []] ∧
  ∀ prompt options, choose_Run prompt options ∉ calls run.
Proof.
  intros Hfetch Hempty run. subst run.
  unfold cmd.selectRevision, call, bind. rewrite Hfetch, Hempty. simpl.
  repeat split. intros prompt options Hin.
  apply elem_of_cons in Hin as [Heq | Hin]; [discriminate |].
  apply elem_of_cons in Hin as [Heq | Hin]; [discriminate |].
  by apply elem_of_nil in Hin.
Qed.

(** The interactive path as a whole: one fetch, one call of the chooser on
    the tags of the window, and the revision the map holds for the answer. *)
Lemma selectRevision_interactive (projectID : string) (r : GetRevisionsResponse.t) :
  GetRevisions Client {| GetRevisionsRequest.ID := projectID |} = Ok r →
  GetRevisionsResponse.Revisions r ≠ [] →
  let window := take 5 (GetRevisionsResponse.Revisions r) in
  let run := cmd.selectRevision env Client choose projectID false in
  calls run =
    [Client_GetRevisions {| GetRevisionsRequest.ID := projectID |};
     choose_Run (spec.prompt env) (Revision.Tag <$> window)]
  ∧ result_of run =
      match choose (spec.prompt env) (Revision.Tag <$> window) with
      | Err err => (None, Some err)
      | Ok tag => ((cmd.collect window).1 !! tag, None)
      end.
Proof.
  intros Hfetch Hne window run. subst run window.
  unfold cmd.selectRevision, call, bind, calls, result_of. rewrite Hfetch.
  destruct (GetRevisionsResponse.Revisions r) as [| x revisions] eqn:Hrevs; [done |].
  rewrite window_take. change (length (x :: revisions) =? 0)%nat with false.
  cbv iota. pose proof (collect_tags (take 5 (x :: revisions))) as Htags.
  destruct (cmd.collect (take 5 (x :: revisions))) as [revisionMap tags].
  simpl in Htags. subst tags. fold (spec.prompt env).
  by destruct (choose _ _).
Qed.

(** C8: with useLatest false and a non-empty list, the chooser is called
    once, with the tags of the first five revisions in the order of the
    list; when the list has at most five entries these are all its tags. *)
Theorem selectRevision_offers_first_five
  (projectID : string) (r : GetRevisionsResponse.t) :
  GetRevisions Client {| GetRevisionsRequest.ID := projectID |} = Ok r →
  GetRevisionsResponse.Revisions r ≠ [] →
  let revisions := GetRevisionsResponse.Revisions r in
  let run := cmd.selectRevision env Client choose projectID false in
  calls run =
    [Client_GetRevisions {| GetRevisionsRequest.ID := projectID |};
     choose_Run (spec.prompt env) (Revision.Tag <$> take 5 revisions)]
  ∧ ((5 < length revisions)%nat → length (Revision.Tag <$> take 5 revisions) = 5)
  ∧ ((length revisions ≤ 5)%nat →
     Revision.Tag <$> take 5 revisions = Revision.Tag <$> revisions).
Proof.
  intros Hfetch Hne revisions run. subst run revisions. split; [| split].
  - by destruct (selectRevision_interactive projectID r Hfetch Hne) as [Hcalls _].
  - intros Hlen. rewrite length_fmap, length_take. lia.
  - intros Hlen. by rewrite take_ge.
Qed.

(** C10: when two revisions of the window bear the same tag, the chooser is
    offered that tag at both positions, and choosing it returns the one that
    comes last in the list among those bearing it. *)
Theorem selectRevision_duplicate_tag_returns_later
  (projectID : string) (r : GetRevisionsResponse.t)
  (i j : nat) (ri rj : Revision.t) :
  GetRevisions Client {| GetRevisionsRequest.ID := projectID |} = Ok r →
  let window := take 5 (GetRevisionsResponse.Revisions r) in
  let offered := Revision.Tag <$> window in
  (i < j)%nat →
  window !! i = Some ri →
  window !! j = Some rj →
  Revision.Tag ri = Revision.Tag rj →
  (∀ k rk, (j < k)%nat → window !! k = Some rk →
           Revision.Tag rk ≠ Revision.Tag rj) →
  choose (spec.prompt env) offered = Ok (Revision.Tag rj) →
  let run := cmd.selectRevision env Client choose projectID false in
  choose_Run (spec.prompt env) offered ∈ calls run
  ∧ offered !! i = Some (Revision.Tag rj)
  ∧ offered !! j = Some (Revision.Tag rj)
  ∧ result_of run = (Some rj, None).
Proof.
  intros Hfetch window offered Hij Hi Hj Htag Hlast Hchoose run.
  assert (GetRevisionsResponse.Revisions r ≠ []) as Hne.
  { intros Hnil. subst window. by rewrite Hnil in Hi. }
  destruct (selectRevision_interactive projectID r Hfetch Hne) as [Hcalls Hres].
  subst run offered window. repeat split.
  - rewrite Hcalls. apply elem_of_cons. right. apply elem_of_cons. by left.
  - rewrite list_lookup_fmap, Hi. simpl. by rewrite Htag.
  - by rewrite list_lookup_fmap, Hj.
  - rewrite Hres, Hchoose. by rewrite (collect_lookup_last _ j rj Hj Hlast).
Qed.

End selector.

Lemma selectRevision_empty_returns_no_error_witness :
  result_of
    (cmd.selectRevision sample.env
       (sample.client [] sample.created sample.logs "complete")
       (sample.pick "a") "app" false)
  = (None, None).
Proof.
  apply (selectRevision_empty_returns_no_error sample.env
           (sample.client [] sample.created sample.logs "complete")
           (sample.pick "a") "app" false
           {| GetRevisionsResponse.Revisions := [] |});
    reflexivity.
Defined.

Lemma selectRevision_offers_first_five_witness :
  calls
    (cmd.selectRevision sample.env
       (sample.client sample.eight sample.created sample.logs "complete")
       (sample.pick "h") "app" false)
  = [Client_GetRevisions {| GetRevisionsRequest.ID := "app" |};
     choose_Run (spec.prompt sample.env) ["h"; "g"; "f"; "e"; "d"]].
Proof.
  destruct (selectRevision_offers_first_five sample.env
              (sample.client sample.eight sample.created sample.logs "complete")
              (sample.pick "h") "app"
              {| GetRevisionsResponse.Revisions := sample.eight |} eq_refl)
    as [Hcalls _]; [discriminate |].
  exact Hcalls.
Defined.

Lemma selectRevision_duplicate_tag_returns_later_witness :
  result_of
    (cmd.selectRevision sample.env
       (sample.client sample.twins sample.created sample.logs "complete")
       (sample.pick "main") "app" false)
  = (Some (sample.revision "r1" "main"), None).
Proof.
  apply (selectRevision_duplicate_tag_returns_later sample.env
           (sample.client sample.twins sample.created sample.logs "complete")
           (sample.pick "main") "app"
           {| GetRevisionsResponse.Revisions := sample.twins |}
           0 2 (sample.revision "r3" "main") (sample.revision "r1" "main"));
    try reflexivity; [lia |].
  intros [| [| [| k]]] rk Hk Hlookup; [lia | lia | lia | discriminate].
Defined.

(** ** The release orchestrator *)

Section split.

Context {A : Type} (P : A → bool).

Lemma no_split (l p q : list A) (y : A) :
  Forall (λ e, P e = false) l → P y = true → l ≠ (p ++ y :: q)%list.
Proof.
  intros Hl Hy ->. apply Forall_app in Hl as [_ Hl].
  apply Forall_cons in Hl as [Hl _]. congruence.
Qed.

Lemma split_unique (l1 l2 p q : list A) (x y : A) :
  P y = true →
  Forall (λ e, P e = false) l1 → Forall (λ e, P e = false) l2 →
  (l1 ++ x :: l2 = p ++ y :: q)%list → p = l1 ∧ y = x ∧ q = l2.
Proof.
  intros Hy H1 H2. revert p. induction H1 as [| a l1 Ha H1 IH]; intros p Heq.
  - destruct p as [| e p]; simpl in Heq.
    + by inversion Heq.
    + inversion Heq; subst. by destruct (no_split _ p q y H2 Hy).
  - destruct p as [| e p]; simpl in Heq.
    + inversion Heq; subst. congruence.
    + inversion Heq; subst. destruct (IH p) as (-> & -> & ->); done.
Qed.

End split.

Lemma append_empty_r (s : string) : (s ++ "")%string = s.
Proof.
  induction s as [| c s IH]; [done |].
  change (String c (s ++ "")%string = String c s). by rewrite IH.
Qed.

Lemma calls_scan (lines : list string) :
  cmd.scan lines = (tt, spec.streamed lines).
Proof.
  unfold spec.streamed. induction lines as [| line rest IH]; [done |].
  simpl. unfold bind, emit. by rewrite IH.
Qed.

Lemma streamed_streaming (lines : list string) :
  Forall (λ e, spec.is_streaming e = true) (spec.streamed lines).
Proof.
  unfold spec.streamed. apply Forall_app. split.
  - induction lines; simpl; repeat constructor; done.
  - repeat constructor.
Qed.

Lemma streamed_no_promotion (lines : list string) :
  Forall (λ e, spec.is_promotion e = false) (spec.streamed lines).
Proof.
  eapply Forall_impl; [apply streamed_streaming |].
  intros [] ?; done.
Qed.

Lemma streamed_no_logger (lines : list string) (v : list string) :
  Logger_Println v ∉ spec.streamed lines.
Proof.
  intros Hin. pose proof (streamed_streaming lines) as H.
  rewrite Forall_forall in H. by apply H in Hin.
Qed.

Ltac run_release :=
  unfold cmd.release, call, defer, bind, emit, ret, result_of, calls;
  repeat match goal with
    | H : _ = _ |- _ => rewrite H
    end;
  rewrite ?calls_scan; simpl.

Ltac no_promotion H :=
  exfalso; simpl in H;
  refine (no_split spec.is_promotion _ _ _ _ _ _ H); [| done];
  repeat first
    [ apply streamed_no_promotion | apply Forall_nil_2
    | apply Forall_cons_2; [done |] | apply Forall_app_2 ].

Section orchestrator.

Context (env : Env) (Client : api.Client).
Context (projectDir projectID revisionID releaseVersion : string).
Context (listedRelease : bool) (releaseNotes : string).

Let req := spec.request projectID revisionID releaseVersion listedRelease releaseNotes.
Let run :=
  cmd.release env Client projectDir projectID revisionID releaseVersion
    listedRelease releaseNotes.

(** C2: when the create-release call answers with the unauthenticated
    condition, the orchestrator prints the login guidance and returns nil;
    its only calls are the submission and that print, so no log stream is
    opened and no promotion status is queried.  Any other submission error
    is logged as a failure to create the release and returned. *)
Theorem release_unauthenticated_short_circuit (err : error) :
  CreateRelease Client req = Err err →
  (Is err ErrNoAccessTokenFound = true →
     result_of run = None
     ∧ calls run = [Client_CreateRelease req; Logger_Println [LoginInfo env]]
     ∧ (∀ r, Client_GetReleaseLogs r ∉ calls run)
     ∧ (∀ r, Client_GetReleasePromotion r ∉ calls run))
  ∧ (Is err ErrNoAccessTokenFound = false →
     result_of run = Some err
     ∧ calls run =
         [Client_CreateRelease req;
          Logger_Println
            [Errorf env "%s Failed to create release: %v"
               [ErrorExclamation env; Error err]]]).
Proof.
  subst req run. unfold spec.request. intros Hcreate. split; intros His.
  - run_release. repeat split; intros r Hin;
      repeat (apply elem_of_cons in Hin as [Heq | Hin]; [discriminate |]);
      by apply elem_of_nil in Hin.
  - run_release. done.
Qed.

(** C3: in every run whose calls include the promotion-status query, what
    precedes the query is the submission, the opening of the log stream
    and the stream read to its end without error, every line printed in
    order; nothing is read from the stream or forwarded after the query. *)
Theorem release_streams_before_polling
  (pre post : list event) (q : GetReleasePromotionRequest.t) :
  calls run = (pre ++ Client_GetReleasePromotion q :: post)%list →
  ∃ cr readCloser,
    CreateRelease Client req = Ok cr
    ∧ GetReleaseLogs Client
        {| GetReleaseLogsRequest.ID := CreateReleaseResponse.ID cr |}
      = Ok readCloser
    ∧ ReadCloser.err readCloser = None
    ∧ pre = ([Client_CreateRelease req;
              Client_GetReleaseLogs
                {| GetReleaseLogsRequest.ID := CreateReleaseResponse.ID cr |}]
             ++ spec.streamed (ReadCloser.lines readCloser))%list
    ∧ q = {| GetReleasePromotionRequest.PromotionID := CreateReleaseResponse.ID cr |}
    ∧ Forall (λ e, spec.is_streaming e = false) post.
Proof.
  subst req run. unfold spec.request. intros Hsplit.
  unfold cmd.release, call, defer, bind, emit, ret, calls in Hsplit.
  destruct (CreateRelease Client _) as [cr | err] eqn:Hcreate.
  - destruct (GetReleaseLogs Client _) as [rc | err] eqn:Hlogs.
    + rewrite calls_scan in Hsplit.
      destruct (ReadCloser.err rc) as [err |] eqn:Herr.
      * no_promotion Hsplit.
      * exists cr, rc. 
        assert (Hpost : ∃ rest,
          (∀ e, e ∈ rest → spec.is_streaming e = false ∧ spec.is_promotion e = false) ∧
          (Client_CreateRelease
             (spec.request projectID revisionID releaseVersion listedRelease releaseNotes)
           :: Client_GetReleaseLogs
                {| GetReleaseLogsRequest.ID := CreateReleaseResponse.ID cr |}
           :: spec.streamed (ReadCloser.lines rc)
           ++ Client_GetReleasePromotion
                {| GetReleasePromotionRequest.PromotionID := CreateReleaseResponse.ID cr |}
           :: rest = pre ++ Client_GetReleasePromotion q :: post)%list).
        { destruct (GetReleasePromotion Client _) as [r | err] eqn:Hprom;
            [destruct (String.eqb _ _); destruct listedRelease |];
            simpl in Hsplit; rewrite <- app_assoc in Hsplit; simpl in Hsplit;
            (eexists; split; [| exact Hsplit]);
            intros e He;
            repeat (apply elem_of_cons in He as [-> | He]; [done |]);
            by apply elem_of_nil in He. }
        destruct Hpost as (rest & Hrest & Heq).
        apply (split_unique spec.is_promotion (_ :: _ :: spec.streamed _))
          in Heq as (-> & Hq & ->); [| done | |].
        -- inversion Hq; subst. repeat split; try done.
           apply Forall_forall. intros e He. by apply Hrest.
        -- repeat constructor. apply streamed_no_promotion.
        -- apply Forall_forall. intros e He. by apply Hrest.
    + no_promotion Hsplit.
  - destruct (Is err ErrNoAccessTokenFound); no_promotion Hsplit.
Qed.

(** C4: in a run that obtains a promotion status, the status Complete
    makes the orchestrator return nil and log the discovery confirmation
    exactly when the release was listed; any other status makes it return
    an error whose message ends with that status. *)
Theorem release_terminal_classification
  (cr : CreateReleaseResponse.t) (readCloser : ReadCloser.t) (r : Promotion.t) :
  CreateRelease Client req = Ok cr →
  GetReleaseLogs Client
    {| GetReleaseLogsRequest.ID := CreateReleaseResponse.ID cr |} = Ok readCloser →
  ReadCloser.err readCloser = None →
  GetReleasePromotion Client
    {| GetReleasePromotionRequest.PromotionID := CreateReleaseResponse.ID cr |}
  = Ok r →
  (Promotion.Status r = Complete env →
     result_of run = None
     ∧ (spec.listed_line env ∈ calls run ↔ listedRelease = true))
  ∧ (Promotion.Status r ≠ Complete env →
     ∃ err, result_of run = Some err
            ∧ Error err = ("release failed: " ++ Promotion.Status r)%string).
Proof.
  subst req run. unfold spec.request, spec.listed_line.
  intros Hcreate Hlogs Herr Hprom. split; intros Hstatus.
  - apply String.eqb_eq in Hstatus.
    destruct listedRelease; run_release; (split; [done |]).
    + split; [done | intros _].
      rewrite !elem_of_cons, !elem_of_app, !elem_of_cons. naive_solver.
    + split; [| done]. intros Hin.
      repeat (apply elem_of_cons in Hin as [Heq | Hin]; [discriminate |]).
      rewrite !elem_of_app in Hin. destruct Hin as [[Hin | Hin] | Hin].
      * by apply streamed_no_logger in Hin.
      * repeat (apply elem_of_cons in Hin as [Heq | Hin]; [discriminate |]).
        by apply elem_of_nil in Hin.
      * repeat (apply elem_of_cons in Hin as [Heq | Hin]; [discriminate |]).
        by apply elem_of_nil in Hin.
  - apply String.eqb_neq in Hstatus. run_release. eexists. split; [done |].
    simpl. by rewrite append_empty_r.
Qed.

End orchestrator.

Lemma release_unauthenticated_short_circuit_witness :
  result_of
    (sample.release
       (sample.client [] (Err ErrNoAccessTokenFound) sample.logs "complete") false)
  = None.
Proof.
  destruct (release_unauthenticated_short_circuit sample.env
              (sample.client [] (Err ErrNoAccessTokenFound) sample.logs "complete")
              "./" "app" "rev-1" "v1" false "notes" ErrNoAccessTokenFound eq_refl)
    as [Hlogin _].
  destruct (Hlogin eq_refl) as [Hnil _]. exact Hnil.
Defined.

Lemma release_streams_before_polling_witness :
  Forall (λ e, spec.is_streaming e = false)
    [Logger_Println [String "010" "! Failed to create release. Please try again!"];
     ReadCloser_Close].
Proof.
  destruct (release_streams_before_polling sample.env
              (sample.client [] sample.created sample.logs "failed")
              "./" "app" "rev-1" "v1" false "notes"
              [Client_CreateRelease (spec.request "app" "rev-1" "v1" false "notes");
               Client_GetReleaseLogs {| GetReleaseLogsRequest.ID := "rel-1" |};
               Scanner_Scan (Some "building"); fmt_Println ["building"];
               Scanner_Scan (Some "deploying"); fmt_Println ["deploying"];
               Scanner_Scan None]
              [Logger_Println [String "010" "! Failed to create release. Please try again!"];
               ReadCloser_Close]
              {| GetReleasePromotionRequest.PromotionID := "rel-1" |} eq_refl)
    as (cr & readCloser & _ & _ & _ & _ & _ & Hpost).
  exact Hpost.
Defined.

Lemma release_terminal_classification_witness :
  spec.listed_line sample.env
    ∈ calls (sample.release
               (sample.client [] sample.created sample.logs "complete") true).
Proof.
  destruct (release_terminal_classification sample.env
              (sample.client [] sample.created sample.logs "complete")
              "./" "app" "rev-1" "v1" true "notes"
              {| CreateReleaseResponse.ID := "rel-1" |}
              {| ReadCloser.lines := ["building"; "deploying"]; ReadCloser.err := None |}
              {| Promotion.Status := "complete" |}
              eq_refl eq_refl eq_refl eq_refl)
    as [Hcomplete _].
  destruct (Hcomplete eq_refl) as [_ Hlisted]. by apply Hlisted.
Defined.

(** ** The pattern of the ignore file *)

Lemma stripPrefix_spec (p s rest : list byte) :
  regexp.stripPrefix p s = Some rest ↔ s = p ++ rest.
Proof.
  revert s. induction p as [| a p IH]; intros s; simpl.
  - split; congruence.
  - destruct s as [| b s]; [split; discriminate |].
    destruct (Byte.eqb a b) eqn:Hab.
    + apply Byte.byte_dec_bl in Hab as ->. rewrite IH. split; congruence.
    + apply Byte.eqb_false in Hab. split; [discriminate | congruence].
Qed.

Lemma matchHere_spec (before : option byte) (s : list byte) :
  regexp.matchHere before s = true ↔
  regexp.beginLine before = true
  ∧ ∃ post, s = regexp.literal ++ post ∧ spec.atWordEnd post.
Proof.
  unfold regexp.matchHere, spec.atWordEnd. rewrite andb_true_iff.
  apply and_iff_compat_l.
  destruct (regexp.stripPrefix regexp.literal s) as [rest |] eqn:Hstrip.
  - apply stripPrefix_spec in Hstrip as ->.
    change (regexp.wordBoundary (last regexp.literal) (head rest))
      with (negb (regexp.isWord (head rest))).
    rewrite negb_true_iff. split.
    + intros Hend. by exists rest.
    + intros (post & Heq & Hend). by apply app_inv_head in Heq as ->.
  - split; [discriminate |]. intros (post & Heq & _).
    apply stripPrefix_spec in Heq. congruence.
Qed.

Lemma byteBefore_cons (before : option byte) (c : byte) (pre : list byte) :
  spec.byteBefore before (c :: pre) = spec.byteBefore (Some c) pre.
Proof.
  unfold spec.byteBefore. destruct pre as [| d pre]; [done |].
  rewrite last_cons_cons. by destruct (last (d :: pre)) eqn:Hlast;
    [| apply last_None in Hlast].
Qed.

Lemma matchFrom_spec (before : option byte) (s : list byte) :
  regexp.matchFrom before s = true ↔
  ∃ pre post, s = pre ++ regexp.literal ++ post
              ∧ regexp.beginLine (spec.byteBefore before pre) = true
              ∧ spec.atWordEnd post.
Proof.
  revert before. induction s as [| c s IH]; intros before; simpl.
  - rewrite orb_false_r, matchHere_spec. split.
    + intros (_ & post & Heq & _). discriminate.
    + intros (pre & post & Heq & _). by destruct pre.
  - rewrite orb_true_iff, matchHere_spec, IH. split.
    + intros [(Hline & post & Heq & Hend) | (pre & post & Heq & Hline & Hend)].
      * by exists [], post.
      * exists (c :: pre), post. rewrite byteBefore_cons. by subst.
    + intros (pre & post & Heq & Hline & Hend). destruct pre as [| d pre].
      * left. split; [done |]. by exists post.
      * right. injection Heq as -> ->. exists pre, post.
        by rewrite byteBefore_cons in Hline.
Qed.

Lemma beginLine_atLineStart (pre : list byte) :
  regexp.beginLine (spec.byteBefore None pre) = true ↔ spec.atLineStart pre.
Proof.
  unfold spec.byteBefore, spec.atLineStart.
  destruct (last pre) as [c |] eqn:Hlast; simpl.
  - split.
    + intros Heq. apply Byte.byte_dec_bl in Heq as ->. by right.
    + intros [-> | Heq]; [done |]. by injection Heq as ->.
  - apply last_None in Hlast as ->. split; [by left | done].
Qed.

(** The search finds a match exactly when some line starts with [.space]
    and does not go on with a word character. *)
Lemma MatchString_spec (s : list byte) :
  regexp.MatchString s = true ↔ spec.ignoresSpace s.
Proof.
  unfold regexp.MatchString, spec.ignoresSpace. rewrite matchFrom_spec.
  split; intros (pre & post & Heq & Hline & Hend); exists pre, post;
    (split; [done |]); (split; [| done]); by apply beginLine_atLineStart.
Qed.

Lemma MatchString_appended (contents : list byte) :
  regexp.MatchString (contents ++ regexp.bytes (runtime.LF ++ ".space")) = true.
Proof.
  apply MatchString_spec. exists (contents ++ [x0a]), [].
  split; [by rewrite <- app_assoc |]. split; [| done].
  right. apply last_snoc.
Qed.

(** ** The project state manager *)

Lemma WriteFile_ok (path : string) (data : list byte) (perm : N) (σ σ' : fs) :
  ioutil.WriteFile path data perm σ = (σ', None) →
  σ' !! path = Some (File data true).
Proof.
  unfold ioutil.WriteFile. intros Hwrite.
  destruct (σ !! path) as [[old [] | | lookup write] |];
    inversion Hwrite; apply lookup_insert_eq.
Qed.


Lemma readFile_File (m : runtime.Manager) (path : string) (σ : fs)
  (data : list byte) (writable : bool) :
  σ !! path = Some (File data writable) → runtime.readFile m path σ = Ok data.
Proof. intros Hlookup. unfold runtime.readFile, Open. by rewrite Hlookup. Qed.

Section metadata.

Context {ProjectMeta : Type}.
Context (filepath_Join : string → string → string).
Context (json_Marshal : ProjectMeta → result (list byte)).
Context (projectMetaFromBytes : list byte → option ProjectMeta * option error).

(** C5: for a valid project record, whenever StoreProjectMeta succeeds,
    GetProjectMeta on the resulting file system returns that record and no
    error. *)
Theorem StoreProjectMeta_GetProjectMeta_roundtrip
  (m : runtime.Manager) (p : ProjectMeta) (σ σ' : fs) :
  spec.valid json_Marshal projectMetaFromBytes p →
  runtime.StoreProjectMeta filepath_Join json_Marshal m p σ = (σ', None) →
  runtime.GetProjectMeta projectMetaFromBytes m σ' = (Some p, None).
Proof.
  intros Hvalid Hstore. unfold runtime.StoreProjectMeta in Hstore.
  destruct (json_Marshal p) as [marshalled | err] eqn:Hmarshal; [| discriminate].
  destruct (ioutil.WriteFile (filepath_Join _ _) _ _ σ) as [σ0 ignored].
  apply WriteFile_ok in Hstore.
  unfold runtime.GetProjectMeta.
  rewrite (readFile_File _ _ _ _ _ Hstore).
  by rewrite (Hvalid marshalled).
Qed.

(** C6: when no file exists at the metadata path, GetProjectMeta returns
    neither a record nor an error; when the file exists, a failure to read
    it is returned as the error, and so is a failure to decode it. *)
Theorem GetProjectMeta_absent_or_error (m : runtime.Manager) (σ : fs) :
  (notExist (runtime.projectMetaPath m) σ →
     runtime.GetProjectMeta projectMetaFromBytes m σ = (None, None))
  ∧ (¬ notExist (runtime.projectMetaPath m) σ →
     ∀ err, runtime.readFile m (runtime.projectMetaPath m) σ = Err err →
            runtime.GetProjectMeta projectMetaFromBytes m σ = (None, Some err))
  ∧ (∀ contents projectMeta err,
       runtime.readFile m (runtime.projectMetaPath m) σ = Ok contents →
       projectMetaFromBytes contents = (projectMeta, Some err) →
       runtime.GetProjectMeta projectMetaFromBytes m σ = (None, Some err)).
Proof.
  unfold notExist, runtime.GetProjectMeta, runtime.readFile, Stat, Open.
  split; [| split].
  - intros (err & Hstat & Hnot).
    destruct (σ !! runtime.projectMetaPath m) as [[data w | | lookup write] |];
      try discriminate.
    + injection Hstat as <-. by destruct lookup.
    + done.
  - intros Hexists err Hread.
    destruct (σ !! runtime.projectMetaPath m) as [[data w | | lookup write] |];
      simpl in Hread; try discriminate.
    + by injection Hread as <-.
    + injection Hread as <-. destruct lookup; try done.
      destruct Hexists. by eexists.
    + destruct Hexists. by eexists.
  - intros contents projectMeta err Hread Hdecode.
    destruct (σ !! runtime.projectMetaPath m) as [[data w | | lookup write] |];
      simpl in Hread; try discriminate.
    injection Hread as ->. simpl. by rewrite Hdecode.
Qed.

End metadata.

Section ignore_file.

Context (filepath_Join : string → string → string).
Context (m : runtime.Manager).

Let path := filepath_Join (runtime.rootDir m) ".gitignore".
Let appended (contents : list byte) : list byte :=
  contents ++ regexp.bytes (runtime.LF ++ ".space").

Ltac run_AddSpaceToGitignore H :=
  unfold runtime.AddSpaceToGitignore, runtime.readFile, Stat, Open, ioutil.WriteFile;
  fold path; rewrite ?H; simpl.

Lemma AddSpaceToGitignore_creates (σ : fs) :
  σ !! path = None →
  runtime.AddSpaceToGitignore filepath_Join m σ
  = (<[path := File (regexp.bytes ".space") true]> σ, None).
Proof. intros Hlookup. by run_AddSpaceToGitignore Hlookup. Qed.

Lemma AddSpaceToGitignore_present (σ : fs) (contents : list byte) (writable : bool) :
  σ !! path = Some (File contents writable) →
  regexp.MatchString contents = true →
  runtime.AddSpaceToGitignore filepath_Join m σ = (σ, None).
Proof.
  intros Hlookup Hmatch. run_AddSpaceToGitignore Hlookup. by rewrite Hmatch.
Qed.

Lemma AddSpaceToGitignore_appends (σ : fs) (contents : list byte) :
  σ !! path = Some (File contents true) →
  regexp.MatchString contents = false →
  runtime.AddSpaceToGitignore filepath_Join m σ
  = (<[path := File (appended contents) true]> σ, None).
Proof.
  intros Hlookup Hmatch. run_AddSpaceToGitignore Hlookup. by rewrite Hmatch.
Qed.

(** In every other state of the path the call fails and writes nothing. *)
Lemma AddSpaceToGitignore_otherwise (σ : fs) :
  σ !! path ≠ None →
  (∀ contents writable,
     σ !! path = Some (File contents writable) →
     regexp.MatchString contents = false ∧ writable = false) →
  (runtime.AddSpaceToGitignore filepath_Join m σ).1 = σ.
Proof.
  intros Hsome Hfile.
  destruct (σ !! path) as [[contents writable | | lookup write] |] eqn:Hlookup;
    [| | | done].
  - destruct (Hfile contents writable eq_refl) as [Hmatch ->].
    run_AddSpaceToGitignore Hlookup. by rewrite Hmatch.
  - by run_AddSpaceToGitignore Hlookup.
  - run_AddSpaceToGitignore Hlookup. destruct lookup; simpl; by rewrite ?Hlookup.
Qed.

(** C7: whatever the ignore file is at first (absent, a file of any content,
    or a path that cannot be read), a second call of AddSpaceToGitignore
    right after the first leaves the file, and the whole file system, as the
    first call left it. *)
Theorem AddSpaceToGitignore_idempotent (σ : fs) :
  let σ1 := (runtime.AddSpaceToGitignore filepath_Join m σ).1 in
  let σ2 := (runtime.AddSpaceToGitignore filepath_Join m σ1).1 in
  runtime.gitignore filepath_Join m σ2 = runtime.gitignore filepath_Join m σ1
  ∧ σ2 = σ1.
Proof.
  intros σ1 σ2. assert (σ2 = σ1) as Heq; [| by rewrite Heq].
  subst σ2 σ1.
  destruct (σ !! path) as [[contents writable | | lookup write] |] eqn:Hlookup.
  - destruct (regexp.MatchString contents) eqn:Hmatch.
    + rewrite (AddSpaceToGitignore_present σ contents writable) by done. simpl.
      by rewrite (AddSpaceToGitignore_present σ contents writable).
    + destruct writable.
      * rewrite (AddSpaceToGitignore_appends σ contents) by done. simpl.
        rewrite (AddSpaceToGitignore_present _ (appended contents) true);
          [done | apply lookup_insert_eq | apply MatchString_appended].
      * assert ((runtime.AddSpaceToGitignore filepath_Join m σ).1 = σ) as Hsame.
        { apply AddSpaceToGitignore_otherwise; [congruence |].
          intros c w Hc. rewrite Hlookup in Hc. by injection Hc as <- <-. }
        by rewrite !Hsame.
  - assert ((runtime.AddSpaceToGitignore filepath_Join m σ).1 = σ) as Hsame.
    { apply AddSpaceToGitignore_otherwise; [congruence |].
      intros c w Hc. congruence. }
    by rewrite !Hsame.
  - assert ((runtime.AddSpaceToGitignore filepath_Join m σ).1 = σ) as Hsame.
    { apply AddSpaceToGitignore_otherwise; [congruence |].
      intros c w Hc. congruence. }
    by rewrite !Hsame.
  - rewrite (AddSpaceToGitignore_creates σ) by done. simpl.
    rewrite (AddSpaceToGitignore_present _ (regexp.bytes ".space") true);
      [done | apply lookup_insert_eq | done].
Qed.

(** C9: on an existing ignore file, a line that starts with [.space] and
    goes on with a byte that is not a word character (or ends there) makes
    the call leave the file as it is, so [.space-data] and [.space/] keep
    the exact pattern from being added; when no line is of that form, as
    with [.spacex] alone, the pattern is added on a new line. *)
Theorem AddSpaceToGitignore_prefix_match
  (σ : fs) (contents : list byte) (writable : bool) :
  runtime.gitignore filepath_Join m σ = Some (File contents writable) →
  (spec.ignoresSpace contents →
     runtime.AddSpaceToGitignore filepath_Join m σ = (σ, None))
  ∧ (¬ spec.ignoresSpace contents → writable = true →
     runtime.AddSpaceToGitignore filepath_Join m σ
     = (<[path := File (appended contents) true]> σ, None))
  ∧ (∀ pre rest, spec.atLineStart pre →
       spec.ignoresSpace (pre ++ regexp.bytes ".space-data" ++ rest)
       ∧ spec.ignoresSpace (pre ++ regexp.bytes ".space/" ++ rest))
  ∧ ¬ spec.ignoresSpace (regexp.bytes ".spacex").
Proof.
  unfold runtime.gitignore. fold path. intros Hlookup.
  split; [| split; [| split; [intros pre rest Hpre; split |]]].
  - intros Hline. apply MatchString_spec in Hline.
    by apply (AddSpaceToGitignore_present σ contents writable).
  - intros Hnone ->. apply AddSpaceToGitignore_appends; [done |].
    destruct (regexp.MatchString contents) eqn:Hmatch; [| done].
    by apply MatchString_spec in Hmatch.
  - by exists pre, (regexp.bytes "-data" ++ rest).
  - by exists pre, (regexp.bytes "/" ++ rest).
  - intros Hline. by apply MatchString_spec in Hline.
Qed.

End ignore_file.

Lemma StoreProjectMeta_GetProjectMeta_roundtrip_witness :
  runtime.GetProjectMeta sample.projectMetaFromBytes sample.manager
    (runtime.StoreProjectMeta sample.Join sample.Marshal sample.manager
       sample.meta ∅).1
  = (Some sample.meta, None).
Proof.
  apply (StoreProjectMeta_GetProjectMeta_roundtrip sample.Join sample.Marshal
           sample.projectMetaFromBytes sample.manager sample.meta ∅).
  - intros marshalled Hmarshal. injection Hmarshal as <-. reflexivity.
  - reflexivity.
Defined.

Lemma GetProjectMeta_absent_or_error_witness :
  runtime.GetProjectMeta sample.projectMetaFromBytes sample.manager ∅
  = (None, None).
Proof.
  destruct (GetProjectMeta_absent_or_error sample.projectMetaFromBytes
              sample.manager ∅) as [Habsent _].
  apply Habsent. eexists. split; reflexivity.
Defined.

Lemma AddSpaceToGitignore_idempotent_witness :
  (runtime.AddSpaceToGitignore sample.Join sample.manager
     (runtime.AddSpaceToGitignore sample.Join sample.manager
        (sample.ignoring "node_modules")).1).1
  = (runtime.AddSpaceToGitignore sample.Join sample.manager
       (sample.ignoring "node_modules")).1.
Proof.
  apply (AddSpaceToGitignore_idempotent sample.Join sample.manager
           (sample.ignoring "node_modules")).
Defined.

Lemma AddSpaceToGitignore_prefix_match_witness :
  runtime.AddSpaceToGitignore sample.Join sample.manager
    (sample.ignoring ".space-data")
  = (sample.ignoring ".space-data", None).
Proof.
  destruct (AddSpaceToGitignore_prefix_match sample.Join sample.manager
              (sample.ignoring ".space-data")
              (regexp.bytes ".space-data") true eq_refl)
    as (Hkeep & _ & Hlines & _).
  apply Hkeep. apply (Hlines [] []). by left.
Defined.

(** * Further properties of the code *)

(** ** Storing and reading the project record *)

Lemma WriteFile_frame (path other : string) (data : list byte) (perm : N) (σ : fs) :
  other ≠ path → (ioutil.WriteFile path data perm σ).1 !! other = σ !! other.
Proof.
  intros Hne. unfold ioutil.WriteFile.
  destruct (σ !! path) as [[old [] | | lookup write] |]; simpl;
    by rewrite ?lookup_insert_ne.
Qed.

Lemma WriteFile_writable (path : string) (data : list byte) (perm : N) (σ : fs) :
  (σ !! path = None ∨ ∃ old, σ !! path = Some (File old true)) →
  ioutil.WriteFile path data perm σ = (<[path := File data true]> σ, None).
Proof.
  unfold ioutil.WriteFile. by intros [-> | [old ->]].
Qed.



Section store.

Context {ProjectMeta : Type}.
Context (filepath_Join : string → string → string).
Context (json_Marshal : ProjectMeta → result (list byte)).
Context (projectMetaFromBytes : list byte → option ProjectMeta * option error).
Context (m : runtime.Manager).

Let README := filepath_Join (runtime.spacePath m) "README".
Let meta := runtime.projectMetaPath m.

(** X1: the note in README is written on a best-effort basis.  Whatever
    the README path leads to (a directory, an unreadable path, the metadata
    path itself), StoreProjectMeta succeeds as soon as the record can be
    serialized and the metadata file can be created or overwritten, and the
    metadata file then holds the serialized record. *)
Theorem StoreProjectMeta_README_best_effort
  (p : ProjectMeta) (marshalled : list byte) (σ : fs) :
  json_Marshal p = Ok marshalled →
  (σ !! meta = None ∨ ∃ old, σ !! meta = Some (File old true)) →
  ∃ σ', runtime.StoreProjectMeta filepath_Join json_Marshal m p σ = (σ', None)
        ∧ σ' !! meta = Some (File marshalled true).
Proof.
  subst README meta. intros Hmarshal Hmeta.
  unfold runtime.StoreProjectMeta. rewrite Hmarshal.
  destruct (ioutil.WriteFile (filepath_Join _ _) _ _ σ) as [σ0 ignored] eqn:Hnote.
  assert (σ0 !! runtime.projectMetaPath m = None
          ∨ ∃ old, σ0 !! runtime.projectMetaPath m = Some (File old true)) as Hmeta0.
  { destruct (decide (runtime.projectMetaPath m
                      = filepath_Join (runtime.spacePath m) "README")) as [Heq | Hne].
    - rewrite Heq in Hmeta |- *.
      rewrite (WriteFile_writable _ _ _ _ Hmeta) in Hnote.
      injection Hnote as <- _. right. eexists. apply lookup_insert_eq.
    - pose proof (WriteFile_frame _ _ (regexp.bytes
        "Don't commit this folder (.space) to git as it may contain security-sensitive data.")
        runtime.filePermMode σ Hne) as Hframe.
      rewrite Hnote in Hframe. simpl in Hframe. by rewrite Hframe. }
  rewrite (WriteFile_writable _ _ _ _ Hmeta0). eexists. split; [done |].
  apply lookup_insert_eq.
Qed.

(** X2: StoreProjectMeta touches no path but README and the metadata
    file, whether it succeeds or fails. *)
Theorem StoreProjectMeta_frame (p : ProjectMeta) (σ : fs) (other : string) :
  other ≠ README → other ≠ meta →
  (runtime.StoreProjectMeta filepath_Join json_Marshal m p σ).1 !! other
  = σ !! other.
Proof.
  subst README meta. intros Hnote Hmeta. unfold runtime.StoreProjectMeta.
  destruct (json_Marshal p) as [marshalled | err]; [| done].
  pose proof (WriteFile_frame _ _ (regexp.bytes
    "Don't commit this folder (.space) to git as it may contain security-sensitive data.")
    runtime.filePermMode σ Hnote) as Hframe.
  destruct (ioutil.WriteFile (filepath_Join _ _) _ _ σ) as [σ0 ignored].
  simpl in Hframe. rewrite <- Hframe. by apply WriteFile_frame.
Qed.


(** X4: after a StoreProjectMeta that succeeds, IsProjectInitialized
    answers true without error. *)
Theorem StoreProjectMeta_initializes (p : ProjectMeta) (σ σ' : fs) :
  runtime.StoreProjectMeta filepath_Join json_Marshal m p σ = (σ', None) →
  runtime.IsProjectInitialized m σ' = (true, None).
Proof.
  unfold runtime.StoreProjectMeta. intros Hstore.
  destruct (json_Marshal p) as [marshalled | e]; [| discriminate].
  destruct (ioutil.WriteFile (filepath_Join _ _) _ _ σ) as [σ0 ignored].
  apply WriteFile_ok in Hstore.
  unfold runtime.IsProjectInitialized, Stat. by rewrite Hstore.
Qed.

(** X5: IsProjectInitialized and GetProjectMeta agree on absence and on
    failure, although one tests the error of Stat with os.IsNotExist and
    the other the error of Open with errors.Is: when the first answers
    false without error, the second returns neither record nor error; when
    the first fails, so does the second. *)
Theorem IsProjectInitialized_agrees_with_GetProjectMeta (σ : fs) :
  (runtime.IsProjectInitialized m σ = (false, None) →
     runtime.GetProjectMeta projectMetaFromBytes m σ = (None, None))
  ∧ (∀ err, runtime.IsProjectInitialized m σ = (false, Some err) →
       ∃ err', runtime.GetProjectMeta projectMetaFromBytes m σ = (None, Some err')).
Proof.
  unfold runtime.IsProjectInitialized, runtime.GetProjectMeta, runtime.readFile,
    Stat, Open.
  destruct (σ !! runtime.projectMetaPath m) as [[data w | | lookup write] |];
    simpl; split; try done; try (intros err Hinit; discriminate).
  - by destruct lookup.
  - intros err Hinit. destruct lookup; try discriminate; by eexists.
Qed.

End store.

(** ** Patching the ignore file *)




Section ignore_file_outcomes.

Context (filepath_Join : string → string → string).
Context (m : runtime.Manager).

Let path := filepath_Join (runtime.rootDir m) ".gitignore".

Ltac run_Add H :=
  unfold runtime.AddSpaceToGitignore, runtime.readFile, Stat, Open, ioutil.WriteFile;
  fold path; rewrite ?H; simpl.

(** Every way a call of AddSpaceToGitignore can end. *)
Lemma AddSpaceToGitignore_outcome (σ : fs) :
  (σ !! path = None
   ∧ runtime.AddSpaceToGitignore filepath_Join m σ
     = (<[path := File (regexp.bytes ".space") true]> σ, None))
  ∨ (∃ contents writable,
       σ !! path = Some (File contents writable)
       ∧ regexp.MatchString contents = true
       ∧ runtime.AddSpaceToGitignore filepath_Join m σ = (σ, None))
  ∨ (∃ contents,
       σ !! path = Some (File contents true)
       ∧ regexp.MatchString contents = false
       ∧ runtime.AddSpaceToGitignore filepath_Join m σ
         = (<[path := File (contents ++ regexp.bytes (runtime.LF ++ ".space")) true]> σ,
            None))
  ∨ (σ !! path ≠ None
     ∧ ∃ cause,
         runtime.AddSpaceToGitignore filepath_Join m σ
         = (σ, Some (fmt.Errorf_w "failed to append .space to .gitignore: %w" cause))
         ∨ (notExist path σ
            ∧ runtime.AddSpaceToGitignore filepath_Join m σ
              = (σ, Some (fmt.Errorf_w "failed to write .space to .gitignore: %w" cause)))).
Proof.
  destruct (σ !! path) as [[contents writable | | lookup write] |] eqn:Hlookup.
  - destruct (regexp.MatchString contents) eqn:Hmatch.
    + right; left. exists contents, writable. repeat split; [done |].
      run_Add Hlookup. by rewrite Hmatch.
    + destruct writable.
      * right; right; left. exists contents. repeat split; [done |].
        run_Add Hlookup. by rewrite Hmatch.
      * right; right; right. split; [done |]. eexists. left.
        run_Add Hlookup. by rewrite Hmatch.
  - right; right; right. split; [done |]. eexists. left. by run_Add Hlookup.
  - right; right; right. split; [done |].
    destruct lookup; eexists; try (left; by run_Add Hlookup).
    right. split; [| by run_Add Hlookup].
    unfold notExist, Stat. fold path. rewrite Hlookup. by eexists.
  - left. split; [done |]. by run_Add Hlookup.
Qed.

(** X6: whenever AddSpaceToGitignore returns nil, the ignore file exists
    and one of its lines starts with [.space] and ends there or goes on
    with a byte that is not a word character. *)
Theorem AddSpaceToGitignore_success_ignores (σ σ' : fs) :
  runtime.AddSpaceToGitignore filepath_Join m σ = (σ', None) →
  ∃ contents writable,
    runtime.gitignore filepath_Join m σ' = Some (File contents writable)
    ∧ spec.ignoresSpace contents.
Proof.
  unfold runtime.gitignore. fold path. intros Hadd.
  destruct (AddSpaceToGitignore_outcome σ)
    as [[_ Hrun] | [(c & w & Hc & Hmatch & Hrun) | [(c & Hc & _ & Hrun)
       | (_ & cause & [Hrun | [_ Hrun]])]]];
    rewrite Hrun in Hadd; try discriminate; injection Hadd as <-.
  - eexists _, _. split; [apply lookup_insert_eq |]. by apply MatchString_spec.
  - exists c, w. split; [done |]. by apply MatchString_spec.
  - eexists _, _. split; [apply lookup_insert_eq |].
    apply MatchString_spec, MatchString_appended.
Qed.


(** X8: AddSpaceToGitignore touches no path but the ignore file. *)
Theorem AddSpaceToGitignore_frame (σ : fs) (other : string) :
  other ≠ path →
  (runtime.AddSpaceToGitignore filepath_Join m σ).1 !! other = σ !! other.
Proof.
  intros Hne.
  destruct (AddSpaceToGitignore_outcome σ)
    as [[_ Hrun] | [(c & w & _ & _ & Hrun) | [(c & _ & _ & Hrun)
       | (_ & cause & [Hrun | [_ Hrun]])]]];
    rewrite Hrun; simpl; by rewrite ?lookup_insert_ne.
Qed.


(** X10: when no ignore file exists and the call returns nil, the file it
    has created holds exactly [.space]. *)
Theorem AddSpaceToGitignore_creates_exact_pattern (σ σ' : fs) :
  notExist path σ →
  runtime.AddSpaceToGitignore filepath_Join m σ = (σ', None) →
  runtime.gitignore filepath_Join m σ' = Some (File (regexp.bytes ".space") true).
Proof.
  unfold runtime.gitignore, notExist, Stat. fold path.
  intros (e & Hstat & Hnot) Hadd.
  destruct (AddSpaceToGitignore_outcome σ)
    as [[_ Hrun] | [(c & w & Hc & _ & Hrun) | [(c & Hc & _ & Hrun)
       | (_ & cause & [Hrun | [_ Hrun]])]]];
    rewrite Hrun in Hadd; try discriminate.
  - injection Hadd as <-. apply lookup_insert_eq.
  - by rewrite Hc in Hstat.
  - by rewrite Hc in Hstat.
Qed.

End ignore_file_outcomes.

(** ** More on the revision selector *)

Lemma collect_lookup_None (revisions : list Revision.t) (tag : string) :
  (cmd.collect revisions).1 !! tag = None ↔ tag ∉ Revision.Tag <$> revisions.
Proof.
  induction revisions as [| x revisions IH] using rev_ind.
  - split; [intros _ Hin; by apply elem_of_nil in Hin | done].
  - rewrite collect_snoc, fmap_app. simpl.
    rewrite lookup_insert_None, IH, not_elem_of_app, not_elem_of_cons.
    split.
    + intros [Hrest Hne]. split; [done |]. split; [done |]. apply not_elem_of_nil.
    + intros [Hrest [Hne _]]. done.
Qed.

Lemma collect_lookup_Some (revisions : list Revision.t) (tag : string)
  (revision : Revision.t) :
  (cmd.collect revisions).1 !! tag = Some revision →
  revision ∈ revisions ∧ Revision.Tag revision = tag.
Proof.
  induction revisions as [| x revisions IH] using rev_ind; [done |].
  rewrite collect_snoc. simpl. intros Hlookup.
  apply lookup_insert_Some in Hlookup as [[<- <-] | [Hne Hlookup]].
  - split; [| done]. apply elem_of_app. right. by apply list_elem_of_singleton.
  - destruct (IH Hlookup) as [Hin Htag]. split; [| done].
    apply elem_of_app. by left.
Qed.

Section selector_paths.

Context (env : Env) (Client : api.Client).
Context (choose : string → list string → result string).
Context (projectID : string).

Let fetch := {| GetRevisionsRequest.ID := projectID |}.

Lemma selectRevision_empty_list
  (useLatestRevision : bool) (r : GetRevisionsResponse.t) :
  GetRevisions Client fetch = Ok r →
  GetRevisionsResponse.Revisions r = [] →
  result_of (cmd.selectRevision env Client choose projectID useLatestRevision)
  = (None, None).
Proof.
  subst fetch. intros Hfetch Hrevs.
  unfold cmd.selectRevision, call, bind, result_of.
  by rewrite Hfetch, Hrevs.
Qed.

Lemma selectRevision_latest_path
  (r : GetRevisionsResponse.t) (first : Revision.t) (rest : list Revision.t) :
  GetRevisions Client fetch = Ok r →
  GetRevisionsResponse.Revisions r = first :: rest →
  cmd.selectRevision env Client choose projectID true
  = ((Some first, None), [Client_GetRevisions fetch]).
Proof.
  subst fetch. intros Hfetch Hrevs.
  unfold cmd.selectRevision, call, bind.
  by rewrite Hfetch, Hrevs.
Qed.

(** X11: with useLatest true and a non-empty list, selectRevision returns
    the first revision of the list without error; the fetch is its only
    call, so nothing is logged and the chooser is not asked. *)
Theorem selectRevision_latest_shortcut
  (r : GetRevisionsResponse.t) (first : Revision.t) (rest : list Revision.t) :
  GetRevisions Client fetch = Ok r →
  GetRevisionsResponse.Revisions r = first :: rest →
  let run := cmd.selectRevision env Client choose projectID true in
  result_of run = (Some first, None) ∧ calls run = [Client_GetRevisions fetch].
Proof.
  subst fetch. intros Hfetch Hrevs run. subst run.
  unfold cmd.selectRevision, call, bind, result_of, calls.
  by rewrite Hfetch, Hrevs.
Qed.

(** X12: when the fetch fails, selectRevision returns that very error and
    no revision, whatever useLatest is; it logs one line (the login
    guidance when the error is the missing access token, else a message
    that shows the error) and does not ask the chooser. *)
Theorem selectRevision_fetch_failure (useLatestRevision : bool) (err : error) :
  GetRevisions Client fetch = Err err →
  let run := cmd.selectRevision env Client choose projectID useLatestRevision in
  result_of run = (None, Some err)
  ∧ calls run =
      [Client_GetRevisions fetch;
       Logger_Println
         [if Is err ErrNoAccessTokenFound then LoginInfo env
          else Errorf env "%s Failed to get revisions: %v"
                 [ErrorExclamation env; Error err]]]
  ∧ ∀ prompt options, choose_Run prompt options ∉ calls run.
Proof.
  subst fetch. intros Hfetch run. subst run.
  unfold cmd.selectRevision, call, bind, result_of, calls. rewrite Hfetch.
  destruct (Is err ErrNoAccessTokenFound); simpl; repeat split;
    intros prompt options Hin;
    repeat (apply elem_of_cons in Hin as [Heq | Hin]; [discriminate |]);
    by apply elem_of_nil in Hin.
Qed.

(** X13: an error of the chooser is returned as it is, with no revision. *)
Theorem selectRevision_chooser_failure (r : GetRevisionsResponse.t) (err : error) :
  GetRevisions Client fetch = Ok r →
  GetRevisionsResponse.Revisions r ≠ [] →
  choose (spec.prompt env)
    (Revision.Tag <$> take 5 (GetRevisionsResponse.Revisions r)) = Err err →
  result_of (cmd.selectRevision env Client choose projectID false) = (None, Some err).
Proof.
  subst fetch. intros Hfetch Hne Hchoose.
  destruct (selectRevision_interactive env Client choose projectID r Hfetch Hne)
    as [_ Hres].
  by rewrite Hres, Hchoose.
Qed.

(** X14: when the tags of the first five revisions are pairwise distinct,
    choosing the tag of one of them returns that revision. *)
Theorem selectRevision_unique_tags
  (r : GetRevisionsResponse.t) (i : nat) (chosen : Revision.t) :
  GetRevisions Client fetch = Ok r →
  let window := take 5 (GetRevisionsResponse.Revisions r) in
  NoDup (Revision.Tag <$> window) →
  window !! i = Some chosen →
  choose (spec.prompt env) (Revision.Tag <$> window) = Ok (Revision.Tag chosen) →
  result_of (cmd.selectRevision env Client choose projectID false)
  = (Some chosen, None).
Proof.
  subst fetch. intros Hfetch window Hnodup Hi Hchoose.
  assert (GetRevisionsResponse.Revisions r ≠ []) as Hne.
  { intros Hnil. subst window. by rewrite Hnil in Hi. }
  destruct (selectRevision_interactive env Client choose projectID r Hfetch Hne)
    as [_ Hres].
  fold window in Hres. rewrite Hres, Hchoose.
  rewrite (collect_lookup_last window i chosen Hi); [done |].
  intros k rk Hk Hlookup Htag.
  assert (i = k) as Heq; [| lia].
  eapply NoDup_lookup; [exact Hnodup | |].
  - by rewrite list_lookup_fmap, Hi.
  - by rewrite list_lookup_fmap, Hlookup, <- Htag.
Qed.

(** X15: when the chooser answers a tag that is not among those offered,
    selectRevision returns neither a revision nor an error. *)
Theorem selectRevision_unknown_tag (r : GetRevisionsResponse.t) (tag : string) :
  GetRevisions Client fetch = Ok r →
  GetRevisionsResponse.Revisions r ≠ [] →
  let offered := Revision.Tag <$> take 5 (GetRevisionsResponse.Revisions r) in
  choose (spec.prompt env) offered = Ok tag →
  tag ∉ offered →
  result_of (cmd.selectRevision env Client choose projectID false) = (None, None).
Proof.
  subst fetch. intros Hfetch Hne offered Hchoose Hout.
  destruct (selectRevision_interactive env Client choose projectID r Hfetch Hne)
    as [_ Hres].
  fold offered in Hres. rewrite Hres, Hchoose.
  by apply collect_lookup_None in Hout as ->.
Qed.

(** X16: a revision that selectRevision returns is one the service listed:
    with useLatest true the first of the list, otherwise one of the first
    five, and then one that bears the tag the chooser answered. *)
Theorem selectRevision_returns_listed
  (useLatestRevision : bool) (r : GetRevisionsResponse.t)
  (revision : Revision.t) (err : option error) :
  GetRevisions Client fetch = Ok r →
  result_of (cmd.selectRevision env Client choose projectID useLatestRevision)
  = (Some revision, err) →
  let revisions := GetRevisionsResponse.Revisions r in
  err = None
  ∧ if useLatestRevision then head revisions = Some revision
    else revision ∈ take 5 revisions
         ∧ choose (spec.prompt env) (Revision.Tag <$> take 5 revisions)
           = Ok (Revision.Tag revision).
Proof.
  intros Hfetch Hres revisions. subst revisions.
  destruct (GetRevisionsResponse.Revisions r) as [| first rest] eqn:Hrevs.
  { rewrite (selectRevision_empty_list useLatestRevision r Hfetch Hrevs) in Hres.
    discriminate. }
  destruct useLatestRevision.
  - rewrite (selectRevision_latest_path r first rest Hfetch Hrevs) in Hres.
    by injection Hres as <- <-.
  - assert (GetRevisionsResponse.Revisions r ≠ []) as Hne by (by rewrite Hrevs).
    destruct (selectRevision_interactive env Client choose projectID r Hfetch Hne)
      as [_ Hrun].
    rewrite Hrevs in Hrun. rewrite Hrun in Hres.
    destruct (choose _ _) as [tag | e]; [| discriminate].
    injection Hres as Hlookup <-.
    apply collect_lookup_Some in Hlookup as [Hin <-]. done.
Qed.

End selector_paths.

(** ** More on the release orchestrator *)

Lemma filter_none {A : Type} (f : A → bool) (l : list A) :
  Forall (λ e, f e = false) l → List.filter f l = [].
Proof.
  induction 1 as [| e l He _ IH]; [done |]. simpl. by rewrite He.
Qed.

Lemma streamed_only_streaming (f : event → bool) (lines : list string) :
  (∀ e, spec.is_streaming e = true → f e = false) →
  List.filter f (spec.streamed lines) = [].
Proof.
  intros Hf. apply filter_none.
  eapply Forall_impl; [apply streamed_streaming | done].
Qed.

Lemma streamed_not_elem (e : event) (lines : list string) :
  spec.is_streaming e = false → e ∉ spec.streamed lines.
Proof.
  intros He Hin. pose proof (streamed_streaming lines) as H.
  rewrite Forall_forall in H. apply H in Hin. congruence.
Qed.

Lemma printed_app (t t' : list event) :
  observe.printed (t ++ t') = observe.printed t ++ observe.printed t'.
Proof. apply flat_map_app. Qed.

Lemma printed_streamed (lines : list string) :
  observe.printed (spec.streamed lines) = lines.
Proof.
  unfold spec.streamed. rewrite printed_app. simpl. rewrite app_nil_r.
  induction lines as [| line lines IH]; [done |]. simpl. by rewrite IH.
Qed.

Section orchestrator_runs.

Context (env : Env) (Client : api.Client).
Context (projectDir projectID revisionID releaseVersion : string).
Context (listedRelease : bool) (releaseNotes : string).

Let req := spec.request projectID revisionID releaseVersion listedRelease releaseNotes.
Let run :=
  cmd.release env Client projectDir projectID revisionID releaseVersion
    listedRelease releaseNotes.

(** Every branch of [release], each with what the collaborators answered. *)
Ltac release_branches :=
  subst req run; unfold spec.request;
  unfold cmd.release, call, defer, bind, emit, ret, result_of, calls;
  destruct (CreateRelease Client _) as [cr | err] eqn:Hcreate;
  [ destruct (GetReleaseLogs Client _) as [rc | err] eqn:Hlogs;
    [ rewrite calls_scan; destruct (ReadCloser.err rc) as [err |] eqn:Herr;
      [ | destruct (GetReleasePromotion Client _) as [r | err] eqn:Hprom;
          [ destruct (String.eqb (Promotion.Status r) (Complete env)) eqn:Hstatus;
            [ destruct listedRelease | ]
          | ] ]
    | ]
  | destruct (Is err ErrNoAccessTokenFound) eqn:His ];
  simpl.

Ltac status_prop :=
  try match goal with
    | H : String.eqb _ _ = true |- _ => apply String.eqb_eq in H
    | H : String.eqb _ _ = false |- _ => apply String.eqb_neq in H
    end.

(** X17: the log stream is closed exactly in the runs that opened it, and
    then once, as the last call of the run: on success, on a read error, on
    a failed status query and on a failed release alike. *)
Theorem release_closes_what_it_opened :
  (ReadCloser_Close ∈ calls run ↔
     ∃ cr readCloser,
       CreateRelease Client req = Ok cr
       ∧ GetReleaseLogs Client
           {| GetReleaseLogsRequest.ID := CreateReleaseResponse.ID cr |}
         = Ok readCloser)
  ∧ (ReadCloser_Close ∈ calls run →
     ∃ before, calls run = before ++ [ReadCloser_Close]
               ∧ ReadCloser_Close ∉ before).
Proof.
  release_branches.
  all: try (split; [split |];
            [ intros Hin;
              repeat (apply elem_of_cons in Hin as [Heq | Hin]; [discriminate |]);
              by apply elem_of_nil in Hin
            | intros (cr' & rc' & Hcr & Hrc); congruence
            | intros Hin;
              repeat (apply elem_of_cons in Hin as [Heq | Hin]; [discriminate |]);
              by apply elem_of_nil in Hin ]).
  all: split; [split; [intros _; by exists cr, rc |] | intros _].
  all: try (intros _; rewrite !elem_of_cons, !elem_of_app, !elem_of_cons;
            right; right; right; by left).
  all: match goal with
       | |- ∃ _, (?a :: ?b :: ?middle ++ [ReadCloser_Close]) = _ ∧ _ =>
           exists (a :: b :: middle); (split; [reflexivity |])
       end.
  all: rewrite !not_elem_of_cons, !not_elem_of_app, !not_elem_of_cons;
    repeat split; try done; try apply not_elem_of_nil;
    by apply streamed_not_elem.
Qed.

(** X18: the lines written to the standard output are the lines of the
    log stream, each once and in the order of the stream, in every run that
    opened the stream, however the run ends; a run that did not open it
    writes none. *)
Theorem release_forwards_lines_verbatim :
  observe.printed (calls run) =
    match CreateRelease Client req with
    | Ok cr =>
        match GetReleaseLogs Client
                {| GetReleaseLogsRequest.ID := CreateReleaseResponse.ID cr |} with
        | Ok readCloser => ReadCloser.lines readCloser
        | Err _ => []
        end
    | Err _ => []
    end.
Proof.
  release_branches; try done.
  all: rewrite !printed_app, printed_streamed; unfold observe.printed; simpl;
    by rewrite !app_nil_r.
Qed.

(** X19: release is a single attempt.  Its first call is the submission,
    on the experimental channel; no run submits twice, opens the log stream
    twice or queries the promotion status twice. *)
Theorem release_single_attempt :
  CreateReleaseRequest.Channel req = "experimental"
  ∧ ∃ rest,
      calls run = Client_CreateRelease req :: rest
      ∧ List.filter observe.is_create rest = []
      ∧ (length (List.filter observe.is_open rest) ≤ 1)%nat
      ∧ (length (List.filter spec.is_promotion rest) ≤ 1)%nat.
Proof.
  split; [done |]. release_branches; eexists; (split; [reflexivity |]); simpl;
    rewrite ?List.filter_app, ?streamed_only_streaming by (by intros []);
    simpl; repeat split; lia.
Qed.

(** X20: release returns nil in two cases only: the submission was refused
    for want of an access token, or the submission, the log stream and the
    status query all went through and the status is Complete. *)
Theorem release_nil_iff :
  result_of run = None ↔
    (∃ err, CreateRelease Client req = Err err
            ∧ Is err ErrNoAccessTokenFound = true)
    ∨ (∃ cr readCloser r,
         CreateRelease Client req = Ok cr
         ∧ GetReleaseLogs Client
             {| GetReleaseLogsRequest.ID := CreateReleaseResponse.ID cr |}
           = Ok readCloser
         ∧ ReadCloser.err readCloser = None
         ∧ GetReleasePromotion Client
             {| GetReleasePromotionRequest.PromotionID := CreateReleaseResponse.ID cr |}
           = Ok r
         ∧ Promotion.Status r = Complete env).
Proof.
  release_branches; status_prop.
  all: split;
    [ intros Hnil; try discriminate;
      try (left; by eexists);
      right; by exists cr, rc, r
    | intros [(e & He & Hno) | (cr' & rc' & r' & Hcr & Hrc & Herr' & Hr & Hst)];
      try congruence ].
  all: injection Hcr as <-; rewrite Hlogs in Hrc; injection Hrc as <-;
    try congruence.
  all: rewrite Hprom in Hr; try discriminate; injection Hr as <-; congruence.
Qed.

(** X21: an error that release returns is the error of the step that
    failed, as that step reported it (the submission, the opening of the
    log stream, the reading of the stream, the status query), or, when the
    status is not Complete, an error whose message is "release failed: "
    followed by the status. *)
Theorem release_error_provenance (e : error) :
  result_of run = Some e →
  CreateRelease Client req = Err e
  ∨ ∃ cr, CreateRelease Client req = Ok cr
    ∧ let open := {| GetReleaseLogsRequest.ID := CreateReleaseResponse.ID cr |} in
      let query :=
        {| GetReleasePromotionRequest.PromotionID := CreateReleaseResponse.ID cr |} in
      GetReleaseLogs Client open = Err e
      ∨ ∃ readCloser, GetReleaseLogs Client open = Ok readCloser
        ∧ (ReadCloser.err readCloser = Some e
           ∨ ReadCloser.err readCloser = None
             ∧ (GetReleasePromotion Client query = Err e
                ∨ ∃ r, GetReleasePromotion Client query = Ok r
                  ∧ Promotion.Status r ≠ Complete env
                  ∧ e = errorString ("release failed: " ++ Promotion.Status r))).
Proof.
  release_branches; status_prop;
    intros He; try discriminate; injection He as <-.
  - right. exists cr. split; [done |]. right. exists rc. split; [done |]. by left.
  - right. exists cr. split; [done |]. right. exists rc. split; [done |].
    right. split; [done |]. right. exists r. split; [done |]. split; [done |].
    unfold fmt.Errorf. simpl. by rewrite append_empty_r.
  - right. exists cr. split; [done |]. right. exists rc. split; [done |].
    right. split; [done |]. by left.
  - right. exists cr. split; [done |]. by left.
  - by left.
Qed.

Lemma release_calls_shape :
  ∃ rest,
    calls run = Client_CreateRelease req :: rest
    ∧ Forall (λ e, observe.is_create e = false) rest
    ∧ Forall (λ e, observe.is_selection e = false) (calls run).
Proof.
  release_branches; eexists; (split; [reflexivity |]); split;
    repeat first
      [ eapply Forall_impl; [apply streamed_streaming | by intros []]
      | apply Forall_nil_2
      | apply Forall_cons_2; [done |]
      | apply Forall_app_2 ].
Qed.

End orchestrator_runs.

(** ** The command as a whole *)


(** X22: the announcement of getCreatingReleaseMsg tells the four kinds of
    release apart: two calls give the same message only when they agree on
    listed and on latest. *)
Theorem getCreatingReleaseMsg_tells_apart (env : Env) (listed latest listed' latest' : bool) :
  cmd.getCreatingReleaseMsg env listed latest
  = cmd.getCreatingReleaseMsg env listed' latest' →
  listed = listed' ∧ latest = latest'.
Proof.
  assert (∀ l t, cmd.getCreatingReleaseMsg env l t
                 = String "010"
                     (Package env
                      ++ (" Creating a" ++ (if l then " listed" else "")
                          ++ " Release"
                          ++ (if t then " with the latest Revision" else "")
                          ++ " ..." ++ cmd.LF ++ cmd.LF))%string) as Hshape.
  { by intros [] []. }
  rewrite !Hshape. intros Heq. injection Heq as Heq.
  apply String.app_inj in Heq.
  by destruct listed, latest, listed', latest'.
Qed.

Lemma made_after (c : command.call) (rest : command.Proc) :
  command.made (command.after c rest) = c :: command.made rest.
Proof. by destruct rest. Qed.


Lemma made_run {A : Type} (m : IO A) (rest : A → command.Proc) :
  command.made (command.run m rest)
  = (command.inner <$> calls m) ++ command.made (rest (result_of m)).
Proof. destruct m as [a t]. simpl. by destruct (rest a). Qed.


Lemma made_final (err : option error) :
  command.made
    match err with
    | Some _ => command.os_Exit 1
    | None => (command.Returned, [])
    end = [].
Proof. by destruct err. Qed.

Section closure.

Context (env : Env) (Client : api.Client).
Context (choose : string → list string → result string).
Context (Blue : string → string).
Context (IsOutputInteractive : bool).
Context (confirm_run : string → result bool).
Context {ProjectMeta : Type} (ProjectMeta_ID : ProjectMeta → string).
Context (GetProjectMeta : string → option ProjectMeta * option error).
Context (flags : command.Flags).

Let Run :=
  command.Run env Client choose Blue IsOutputInteractive confirm_run
    ProjectMeta_ID GetProjectMeta flags.

(** X23: the command stops before it contacts the remote service, and does
    not end well, when it is run without a terminal and with neither rid
    nor confirm, and when it has to look the project up (no id given) and
    the lookup does not yield a record. *)
Theorem Run_stops_before_remote :
  (IsOutputInteractive = false
   ∧ command.Changed flags "rid" = false
   ∧ command.Changed flags "confirm" = false)
  ∨ (command.Changed flags "id" = false
     ∧ ∀ projectMeta, GetProjectMeta (command.dir flags) ≠ (Some projectMeta, None)) →
  Forall (λ c, observe.is_remote c = false) (command.made Run)
  ∧ command.ended Run ≠ command.Returned.
Proof.
  subst Run. unfold command.Run, command.after, command.os_Exit.
  intros [(-> & -> & ->) | (Hid & Hmeta)]; simpl.
  - split; [by repeat constructor | done].
  - destruct (negb IsOutputInteractive && negb (command.Changed flags "rid")
              && negb (command.Changed flags "confirm")); simpl.
    + split; [by repeat constructor | done].
    + rewrite Hid. simpl.
      destruct (GetProjectMeta (command.dir flags)) as [[projectMeta |] [err |]] eqn:Hget;
        simpl; try (split; [by repeat constructor | done]).
      by destruct (Hmeta projectMeta).
Qed.

(** X24: when a revision id is given, the command resolves no revision: it
    asks no confirmation, fetches no revisions and asks no chooser; and
    every release it submits is for that revision id. *)
Theorem Run_explicit_revision :
  command.Changed flags "rid" = true →
  Forall (λ c, observe.is_resolution c = false) (command.made Run)
  ∧ ∀ request, command.inner (Client_CreateRelease request) ∈ command.made Run →
               CreateReleaseRequest.RevisionID request = command.rid flags.
Proof.
  subst Run. unfold command.Run. intros ->.
  cbv beta zeta. cbn [negb]. rewrite andb_false_r. cbn [andb].
  assert (∀ projectID,
    let t := calls (cmd.release env Client (command.dir flags) projectID
                      (command.rid flags) (command.version flags)
                      (command.listed flags) (command.notes flags)) in
    Forall (λ c, observe.is_resolution c = false) (command.inner <$> t)
    ∧ ∀ request, command.inner (Client_CreateRelease request) ∈ command.inner <$> t →
                 CreateReleaseRequest.RevisionID request = command.rid flags)
    as Hsubmit.
  { intros projectID t. subst t.
    destruct (release_calls_shape env Client (command.dir flags) projectID
                (command.rid flags) (command.version flags)
                (command.listed flags) (command.notes flags))
      as (rest & Hcalls & Hcreate & Hselect).
    split.
    - apply Forall_fmap. eapply Forall_impl; [exact Hselect | done].
    - intros request Hin.
      apply list_elem_of_fmap in Hin as (e' & Heq & Hin). injection Heq as <-.
      rewrite Hcalls in Hin. apply elem_of_cons in Hin as [Heq | Hin].
      + by injection Heq as ->.
      + rewrite Forall_forall in Hcreate. by apply Hcreate in Hin. }
  destruct (command.Changed flags "id"); cbn [negb].
  - rewrite made_after, made_run, made_final, app_nil_r.
    destruct (Hsubmit (command.id flags)) as [Hall Hreq].
    split; [by apply Forall_cons_2 |]. intros request Hin.
    apply elem_of_cons in Hin as [Heq | Hin]; [discriminate | by apply Hreq].
  - rewrite made_after.
    destruct (GetProjectMeta (command.dir flags)) as [[projectMeta |] [err |]].
    1, 3, 4: split; [by repeat constructor |];
      intros request Hin;
      repeat (apply elem_of_cons in Hin as [Heq | Hin]; [discriminate |]);
      by apply elem_of_nil in Hin.
    rewrite made_after, made_run, made_final, app_nil_r.
    destruct (Hsubmit (ProjectMeta_ID projectMeta)) as [Hall Hreq].
    split; [by repeat apply Forall_cons_2 |]. intros request Hin.
    repeat (apply elem_of_cons in Hin as [Heq | Hin]; [discriminate |]).
    by apply Hreq.
Qed.



End closure.

(** ** The further properties on the sample project *)

Lemma StoreProjectMeta_README_best_effort_witness :
  ∃ σ',
    runtime.StoreProjectMeta sample.Join sample.Marshal sample.manager sample.meta
      {[ "/app/.space/README" := Dir ]} = (σ', None)
    ∧ σ' !! "/app/.space/meta" = Some (File (regexp.bytes "a0b1c2") true).
Proof.
  apply (StoreProjectMeta_README_best_effort sample.Join sample.Marshal
           sample.manager sample.meta (regexp.bytes "a0b1c2")
           {[ "/app/.space/README" := Dir ]} eq_refl).
  left. reflexivity.
Defined.

Lemma StoreProjectMeta_frame_witness :
  (runtime.StoreProjectMeta sample.Join sample.Marshal sample.manager sample.meta
     (sample.ignoring "node_modules")).1 !! "/app/.gitignore"
  = sample.ignoring "node_modules" !! "/app/.gitignore".
Proof.
  apply (StoreProjectMeta_frame sample.Join sample.Marshal sample.manager
           sample.meta (sample.ignoring "node_modules") "/app/.gitignore");
    discriminate.
Defined.


Lemma StoreProjectMeta_initializes_witness :
  runtime.IsProjectInitialized sample.manager
    (runtime.StoreProjectMeta sample.Join sample.Marshal sample.manager
       sample.meta ∅).1
  = (true, None).
Proof.
  apply (StoreProjectMeta_initializes sample.Join sample.Marshal sample.manager
           sample.meta ∅).
  reflexivity.
Defined.

Lemma AddSpaceToGitignore_success_ignores_witness :
  ∃ contents writable,
    runtime.gitignore sample.Join sample.manager
      (runtime.AddSpaceToGitignore sample.Join sample.manager
         (sample.ignoring "node_modules")).1
    = Some (File contents writable)
    ∧ spec.ignoresSpace contents.
Proof.
  apply (AddSpaceToGitignore_success_ignores sample.Join sample.manager
           (sample.ignoring "node_modules")).
  reflexivity.
Defined.


Lemma AddSpaceToGitignore_frame_witness :
  (runtime.AddSpaceToGitignore sample.Join sample.manager
     {[ "/app/.space/meta" := File (regexp.bytes "a0b1c2") true ]}).1
    !! "/app/.space/meta"
  = Some (File (regexp.bytes "a0b1c2") true).
Proof.
  rewrite (AddSpaceToGitignore_frame sample.Join sample.manager
             {[ "/app/.space/meta" := File (regexp.bytes "a0b1c2") true ]}
             "/app/.space/meta"); [reflexivity | discriminate].
Defined.


Lemma AddSpaceToGitignore_creates_exact_pattern_witness :
  runtime.gitignore sample.Join sample.manager
    (runtime.AddSpaceToGitignore sample.Join sample.manager ∅).1
  = Some (File (regexp.bytes ".space") true).
Proof.
  apply (AddSpaceToGitignore_creates_exact_pattern sample.Join sample.manager ∅).
  - eexists. split; reflexivity.
  - reflexivity.
Defined.

Lemma selectRevision_latest_shortcut_witness :
  result_of
    (cmd.selectRevision sample.env
       (sample.client sample.twins sample.created sample.logs "complete")
       (sample.pick "main") "app" true)
  = (Some (sample.revision "r3" "main"), None).
Proof.
  apply (selectRevision_latest_shortcut sample.env
           (sample.client sample.twins sample.created sample.logs "complete")
           (sample.pick "main") "app"
           {| GetRevisionsResponse.Revisions := sample.twins |}
           (sample.revision "r3" "main")
           [sample.revision "r2" "fix"; sample.revision "r1" "main"]);
    reflexivity.
Defined.

Lemma selectRevision_fetch_failure_witness :
  result_of (cmd.selectRevision sample.env scenario.logged_out
               (sample.pick "main") "app" false)
  = (None, Some ErrNoAccessTokenFound).
Proof.
  apply (selectRevision_fetch_failure sample.env scenario.logged_out
           (sample.pick "main") "app" false ErrNoAccessTokenFound).
  reflexivity.
Defined.

Lemma selectRevision_chooser_failure_witness :
  result_of
    (cmd.selectRevision sample.env
       (sample.client sample.twins sample.created sample.logs "complete")
       scenario.cancel "app" false)
  = (None, Some (errorString "cancelled")).
Proof.
  apply (selectRevision_chooser_failure sample.env
           (sample.client sample.twins sample.created sample.logs "complete")
           scenario.cancel "app"
           {| GetRevisionsResponse.Revisions := sample.twins |}
           (errorString "cancelled"));
    [reflexivity | discriminate | reflexivity].
Defined.

Lemma selectRevision_unique_tags_witness :
  result_of
    (cmd.selectRevision sample.env
       (sample.client sample.eight sample.created sample.logs "complete")
       (sample.pick "f") "app" false)
  = (Some (sample.revision "r6" "f"), None).
Proof.
  apply (selectRevision_unique_tags sample.env
           (sample.client sample.eight sample.created sample.logs "complete")
           (sample.pick "f") "app"
           {| GetRevisionsResponse.Revisions := sample.eight |}
           2 (sample.revision "r6" "f"));
    try reflexivity.
  apply (bool_decide_unpack _). vm_compute. exact I.
Defined.

Lemma selectRevision_unknown_tag_witness :
  result_of
    (cmd.selectRevision sample.env
       (sample.client sample.twins sample.created sample.logs "complete")
       (sample.pick "v2") "app" false)
  = (None, None).
Proof.
  apply (selectRevision_unknown_tag sample.env
           (sample.client sample.twins sample.created sample.logs "complete")
           (sample.pick "v2") "app"
           {| GetRevisionsResponse.Revisions := sample.twins |} "v2");
    [reflexivity | discriminate | reflexivity |].
  apply (bool_decide_unpack _). vm_compute. exact I.
Defined.

Lemma selectRevision_returns_listed_witness :
  sample.revision "r1" "main" ∈ take 5 sample.twins.
Proof.
  destruct (selectRevision_returns_listed sample.env
              (sample.client sample.twins sample.created sample.logs "complete")
              (sample.pick "main") "app" false
              {| GetRevisionsResponse.Revisions := sample.twins |}
              (sample.revision "r1" "main") None eq_refl eq_refl)
    as [_ [Hin _]].
  exact Hin.
Defined.

Lemma release_error_provenance_witness :
  ∃ cr,
    CreateRelease (sample.client [] sample.created sample.logs "failed")
      (spec.request "app" "rev-1" "v1" false "notes") = Ok cr.
Proof.
  destruct (release_error_provenance sample.env
              (sample.client [] sample.created sample.logs "failed")
              "./" "app" "rev-1" "v1" false "notes"
              (errorString "release failed: failed") eq_refl)
    as [Hcreate | (cr & Hcreate & _)].
  - discriminate.
  - by exists cr.
Defined.

Lemma getCreatingReleaseMsg_tells_apart_witness : true = true ∧ false = false.
Proof.
  apply (getCreatingReleaseMsg_tells_apart sample.env true false true false).
  reflexivity.
Defined.

Lemma Run_stops_before_remote_witness :
  command.ended
    (scenario.Run (sample.client sample.twins sample.created sample.logs "complete")
       false scenario.record scenario.bare)
  ≠ command.Returned.
Proof.
  apply (Run_stops_before_remote sample.env
           (sample.client sample.twins sample.created sample.logs "complete")
           (sample.pick "main") id false scenario.yes sample.ID scenario.record
           scenario.bare).
  left. repeat split.
Defined.

Lemma Run_explicit_revision_witness :
  Forall (λ c, observe.is_resolution c = false)
    (command.made
       (scenario.Run (sample.client sample.twins sample.created sample.logs "complete")
          true scenario.record scenario.explicit)).
Proof.
  apply (Run_explicit_revision sample.env
           (sample.client sample.twins sample.created sample.logs "complete")
           (sample.pick "main") id true scenario.yes sample.ID scenario.record
           scenario.explicit).
  reflexivity.
Defined.


